(** * BettaFish desktop shell: the backend supervisor of [desktop/main.js]

    A shallow embedding of the Electron main process that launches the
    Python backend, waits for its health endpoint, watches for its exit and
    tears it down on quit.

    - JavaScript strings are sequences of UTF-16 code units ([list N]).
    - The module-level [let] variables form the record [World], together
      with the store of every [ChildProcess] object created so far (the
      handle [pythonProcess] is a reference into that store) and the log of
      the externally visible actions (dialogs, quit requests, signals).
    - Event handlers are atomic state transformers ([dispatch]); the two
      asynchronous functions take the answers of the environment as an
      explicit argument: [System] for the launch, a list of [Iteration]s for
      the readiness wait.
    - [Date.now()] is a [Z] in milliseconds.
    - The runtime emits ['exit'] once for a child ([dispatch]).

    The window ([createMainWindow], the activate and second-instance
    handlers), [launchApplication] with its startup error box and the
    forwarding of the child's output ([logBackendOutput]) are not part of
    [World]: they form the application layer ([App]), defined over it
    further down. *)

From stdpp Require Import base list strings.
From Stdlib Require Import ZArith Lia.

Local Open Scope Z_scope.

(* ================================================================== *)
(** ** JavaScript strings *)

Module Js.

Definition code_unit := N.
Definition jsstring := list code_unit.

(** A source literal made of ASCII characters. *)
Definition lit (s : string) : jsstring :=
  Ascii.N_of_ascii <$> String.list_ascii_of_string s.

(** ECMAScript [WhiteSpace] and [LineTerminator] code points, the set
    stripped by [String.prototype.trim]. *)
Definition isWhiteSpace (c : code_unit) : bool :=
  ((c =? 0x0009) || (c =? 0x000A) || (c =? 0x000B) || (c =? 0x000C) ||
   (c =? 0x000D) || (c =? 0x0020) || (c =? 0x00A0) || (c =? 0x1680) ||
   ((0x2000 <=? c) && (c <=? 0x200A)) ||
   (c =? 0x2028) || (c =? 0x2029) || (c =? 0x202F) || (c =? 0x205F) ||
   (c =? 0x3000) || (c =? 0xFEFF))%N.

Fixpoint trimStart (s : jsstring) : jsstring :=
  match s with
  | c :: s' => if isWhiteSpace c then trimStart s' else s
  | [] => []
  end.

Definition trimEnd (s : jsstring) : jsstring :=
  reverse (trimStart (reverse s)).

Definition trim (s : jsstring) : jsstring := trimEnd (trimStart s).

(** Truthiness of a value that is either [undefined] or a string. *)
Definition truthy (v : option jsstring) : bool :=
  match v with
  | Some (_ :: _) => true
  | _ => false
  end.

(** Strict equality of a possibly undefined string with a literal. *)
Definition strictEq (v : option jsstring) (s : jsstring) : bool :=
  bool_decide (v = Some s).

End Js.
Import Js.

(* ================================================================== *)
(** ** Constants *)

Definition BACKEND_TIMEOUT_MS : Z := 180000.
Definition BACKEND_CHECK_INTERVAL_MS : Z := 1000.
(** The literal passed to [request.setTimeout] in [pingBackend]. *)
Definition PING_REQUEST_TIMEOUT_MS : Z := 3000.

(* ================================================================== *)
(** ** Errors, completions and promises *)

(** Messages of the [Error] objects the program creates itself, and of
    those it receives from the runtime. *)
Inductive Message :=
| MsgUnexpectedStatus (statusCode : option Z)
| MsgRequestTimedOut
| MsgExitedBeforeReady
| MsgTimedOut
| MsgEntryPointNotFound
| MsgNoInterpreter
| MsgRuntime (text : jsstring).

Record ErrorObj := mkErr { errCode : option jsstring; errMessage : Message }.

(** [new Error(msg)]: no [code] property. *)
Definition newError (m : Message) : ErrorObj := mkErr None m.

(** What an ['error'] listener or a [catch] clause receives: an error
    object or a falsy value. *)
Inductive Thrown :=
| ThrownError (e : ErrorObj)
| ThrownFalsy.

Inductive Promise :=
| Pending
| Fulfilled
| Rejected (reason : Thrown).

(** [resolve] and [reject] act on a pending promise only. *)
Definition settle (p : Promise) (outcome : Promise) : Promise :=
  match p with
  | Pending => outcome
  | _ => p
  end.

Inductive Completion (A : Type) :=
| Normal (a : A)
| Throw (e : Thrown).
Arguments Normal {A} a.
Arguments Throw {A} e.

(* ================================================================== *)
(** ** [pingBackend] *)

(** What the runtime delivers on the request object, in order. *)
Inductive HttpEvent :=
| HttpResponse (statusCode : option Z) (body : jsstring)
| HttpError (e : Thrown)
| HttpTimeout.

Definition statusReady (statusCode : option Z) : bool :=
  match statusCode with
  | Some c => negb (c =? 0) && (200 <=? c) && (c <? 400)
  | None => false
  end.

Definition pingStep (p : Promise) (ev : HttpEvent) : Promise :=
  match ev with
  | HttpResponse statusCode _body =>
      if statusReady statusCode then settle p Fulfilled
      else settle p (Rejected (ThrownError (newError (MsgUnexpectedStatus statusCode))))
  | HttpError e => settle p (Rejected e)
  | HttpTimeout =>
      (* request.destroy(err) emits 'error' with err *)
      settle p (Rejected (ThrownError (newError MsgRequestTimedOut)))
  end.

Definition pingBackend (evs : list HttpEvent) : Promise :=
  foldl pingStep Pending evs.

(* ================================================================== *)
(** ** Candidate commands of [startBackend] *)

Definition defaultCommands (platform : jsstring) : list jsstring :=
  if bool_decide (platform = lit "win32")
  then [lit "python"; lit "python3"]
  else [lit "python3"; lit "python"].

Definition overrideCommands (envPYTHON : option jsstring) : list jsstring :=
  match envPYTHON with
  | Some v =>
      if truthy envPYTHON && (0 <? Z.of_nat (length (trim v)))
      then [trim v] else []
  | None => []
  end.

Definition candidateCommands (envPYTHON : option jsstring) (platform : jsstring)
  : list jsstring :=
  overrideCommands envPYTHON ++ defaultCommands platform.

(* ================================================================== *)
(** ** Child process objects and the module state *)

Inductive Listener := ErrorListener | SpawnListener | ExitListener.

#[global] Instance Listener_eq_dec : EqDecision Listener.
Proof. solve_decision. Defined.

(** The fields of a [ChildProcess] object the program reads, and the
    listeners registered on it. *)
Record ChildProcess := mkChild {
  spawnfile : jsstring;
  exitCode : option Z;
  signalCode : option jsstring;
  killed : bool;
  listeners : list Listener
}.

Inductive ExitReason :=
| ByCode (code : Z)
| BySignal (signal : jsstring).

(** The error box of the exit listener. *)
Inductive Dialog :=
| BackendCrashed (reason : ExitReason).

(** Externally visible actions, in the order they are issued. *)
Inductive Effect :=
| ShowErrorBox (d : Dialog)
| AppQuit
| KillRequested (child : nat).

Record World := mkWorld {
  pythonProcess : option nat;
  backendReady : bool;
  isQuitting : bool;
  children : list ChildProcess;
  effects : list Effect
}.

Definition initialWorld : World := mkWorld None false false [] [].

Definition setPythonProcess (p : option nat) (w : World) : World :=
  mkWorld p (backendReady w) (isQuitting w) (children w) (effects w).
Definition setBackendReady (b : bool) (w : World) : World :=
  mkWorld (pythonProcess w) b (isQuitting w) (children w) (effects w).
Definition setIsQuitting (b : bool) (w : World) : World :=
  mkWorld (pythonProcess w) (backendReady w) b (children w) (effects w).
Definition setChildren (cs : list ChildProcess) (w : World) : World :=
  mkWorld (pythonProcess w) (backendReady w) (isQuitting w) cs (effects w).
Definition emit (e : Effect) (w : World) : World :=
  mkWorld (pythonProcess w) (backendReady w) (isQuitting w) (children w)
          (effects w ++ [e]).

Definition blankChild : ChildProcess := mkChild [] None None false [].

(** Field reads go through [getChild]. A reference held by the program
    always names an object of the store ([wf_world] below), so the default
    is never read on a world the program can reach. *)
Definition getChild (w : World) (r : nat) : ChildProcess :=
  default blankChild (children w !! r).

Definition updChild (f : ChildProcess -> ChildProcess) (r : nat) (w : World) : World :=
  setChildren (alter f r (children w)) w.

Definition withListeners (ls : list Listener) (c : ChildProcess) : ChildProcess :=
  mkChild (spawnfile c) (exitCode c) (signalCode c) (killed c) ls.
Definition withKilled (b : bool) (c : ChildProcess) : ChildProcess :=
  mkChild (spawnfile c) (exitCode c) (signalCode c) b (listeners c).
Definition withExit (code : option Z) (signal : option jsstring) (c : ChildProcess)
  : ChildProcess :=
  mkChild (spawnfile c) code signal (killed c) (listeners c).

Definition addListener (l : Listener) (r : nat) : World -> World :=
  updChild (fun c => withListeners (listeners c ++ [l]) c) r.
Definition removeListener (l : Listener) (r : nat) : World -> World :=
  updChild (fun c => withListeners (filter (fun l' => l' <> l) (listeners c)) c) r.
Definition removeAllListeners (r : nat) : World -> World :=
  updChild (withListeners []) r.

Definition hasListener (l : Listener) (r : nat) (w : World) : bool :=
  bool_decide (l ∈ listeners (getChild w r)).

(* ================================================================== *)
(** ** [stopBackend] *)

(** What [child.kill()] does, decided by the operating system: the signal
    is delivered, the process is already gone, or the call throws. *)
Inductive KillOutcome :=
| KillDelivered
| KillNoSuchProcess
| KillThrows (e : Thrown).

Definition Exec (A : Type) := World -> Completion A * World.

Definition ret {A} (a : A) : Exec A := fun w => (Normal a, w).

Definition bind {A B} (m : Exec A) (k : A -> Exec B) : Exec B :=
  fun w =>
    match m w with
    | (Normal a, w') => k a w'
    | (Throw e, w') => (Throw e, w')
    end.

Definition tryCatch {A} (body : Exec A) (handler : Thrown -> Exec A) : Exec A :=
  fun w =>
    match body w with
    | (Normal a, w') => (Normal a, w')
    | (Throw e, w') => handler e w'
    end.

Definition modify (f : World -> World) : Exec unit := fun w => (Normal tt, f w).

Notation "x <- m ;; k" := (bind m (fun x => k))
  (at level 100, m at next level, right associativity).
Notation "m ;;; k" := (bind m (fun _ => k))
  (at level 100, right associativity).

Definition kill (k : KillOutcome) (r : nat) : Exec bool :=
  fun w =>
    let w' := emit (KillRequested r) w in
    match k with
    | KillDelivered => (Normal true, updChild (withKilled true) r w')
    | KillNoSuchProcess => (Normal false, w')
    | KillThrows e => (Throw e, w')
    end.

Definition stopBackend (k : KillOutcome) : Exec unit :=
  fun w =>
    match pythonProcess w with
    | Some r =>
        (modify (removeAllListeners r) ;;;
         (fun w1 =>
            if negb (killed (getChild w1 r))
            then tryCatch (_ <- kill k r ;; ret tt) (fun _ => ret tt) w1
            else ret tt w1) ;;;
         modify (setPythonProcess None) ;;;
         modify (setBackendReady false)) w
    | None => ret tt w
    end.

(* ================================================================== *)
(** ** Event handlers *)

Inductive ExitStatus :=
| ExitedWith (code : Z)
| KilledBy (signal : jsstring).

Inductive Event :=
| ChildExit (r : nat) (st : ExitStatus)
| BeforeQuit (k : KillOutcome)
| ProcessExit (k : KillOutcome)
| Sigint
| Sigterm.

(** The ['exit'] listener registered by [handleSpawn]. *)
Definition exitHandler (st : ExitStatus) (w : World) : World :=
  let w1 := setBackendReady false (setPythonProcess None w) in
  if negb (isQuitting w1) then
    let reason := match st with
                  | ExitedWith code => ByCode code
                  | KilledBy signal => BySignal signal
                  end in
    emit AppQuit (emit (ShowErrorBox (BackendCrashed reason)) w1)
  else w1.

(** The runtime records the exit on the object, then emits ['exit']. *)
Definition recordExit (st : ExitStatus) : ChildProcess -> ChildProcess :=
  match st with
  | ExitedWith code => withExit (Some code) None
  | KilledBy signal => withExit None (Some signal)
  end.

Definition exited (c : ChildProcess) : bool :=
  bool_decide (exitCode c <> None) || bool_decide (signalCode c <> None).

(** [ChildExit r st] is the exit of the process behind the object [r];
    the runtime reports it once, on an object that exists. *)
Definition dispatch (ev : Event) (w : World) : World :=
  match ev with
  | ChildExit r st =>
      match children w !! r with
      | Some c =>
          if exited c then w
          else
            let w1 := updChild (recordExit st) r w in
            if hasListener ExitListener r w1 then exitHandler st w1 else w1
      | None => w
      end
  | BeforeQuit k => snd (stopBackend k (setIsQuitting true w))
  | ProcessExit k => snd (stopBackend k w)
  | Sigint => emit AppQuit w
  | Sigterm => emit AppQuit w
  end.

Definition dispatchAll (evs : list Event) (w : World) : World :=
  foldl (fun w ev => dispatch ev w) w evs.

(* ================================================================== *)
(** ** [startBackend] *)

(** What a call of [spawn] does. When the process starts, the runtime
    emits ['spawn'] on the new child object. The failures EACCES, EAGAIN,
    EMFILE, ENFILE and ENOENT are reported on the child object: the runtime
    records the negative error number [errno] as its exit code and emits
    ['error'] with the error. Every other failure is thrown by [spawn]
    itself, and no child object reaches the program. *)
Inductive SpawnOutcome :=
| SpawnOk
| SpawnFails (errno : Z) (error : Thrown)
| SpawnThrows (error : Thrown).

(** What the launch reads from its environment. [spawnOutcome i cmd] is the
    fate of the [i]-th call of [spawn], made with command [cmd]. *)
Record System := mkSystem {
  scriptExists : bool;
  envPYTHON : option jsstring;
  platform : jsstring;
  spawnOutcome : nat -> jsstring -> SpawnOutcome
}.

(** [error && error.code === 'ENOENT'] *)
Definition isENOENT (error : Thrown) : bool :=
  match error with
  | ThrownError e => strictEq (errCode e) (lit "ENOENT")
  | ThrownFalsy => false
  end.

Definition NoInterpreterFound : Thrown := ThrownError (newError MsgNoInterpreter).
Definition EntryPointNotFound : Thrown := ThrownError (newError MsgEntryPointNotFound).

(** [spawn(command, ...)] creates the child object; the reference of the
    new object is its position in the store. *)
Definition freshChild (command : jsstring) (ls : list Listener) : ChildProcess :=
  mkChild command None None false ls.

Definition spawn (command : jsstring) (w : World) : nat * World :=
  (length (children w),
   setChildren (children w ++ [freshChild command []]) w).

(** The object of a child whose spawn the runtime has reported as failed,
    once [handleError] is done with it. *)
Definition failedChild (command : jsstring) (errno : Z) : ChildProcess :=
  mkChild command (Some errno) None false [].

Definition handleSpawn (child : nat) (w : World) : World :=
  let w1 := removeListener ErrorListener child w in
  let w2 := setBackendReady false (setPythonProcess (Some child) w1) in
  addListener ExitListener child w2.

(** [trySpawn index], by recursion on the candidates from [index] on. A
    [once] listener is removed when its event is emitted.

    [trySpawn(0)] runs inside the executor of the promise, which turns an
    exception into a rejection. [trySpawn(index + 1)] runs inside
    [handleError], that is inside the emission of ['error']: an exception
    thrown by [spawn] there is caught by nobody in the program and neither
    [resolve] nor [reject] is ever called. What the host does with the
    uncaught exception is outside the model. *)
Fixpoint trySpawnFrom (outcome : nat -> jsstring -> SpawnOutcome)
    (rest : list jsstring) (index : nat) (w : World) : Promise * World :=
  match rest with
  | [] => (Rejected NoInterpreterFound, w)
  | command :: rest' =>
      match outcome index command with
      | SpawnThrows error =>
          (match index with
           | O => Rejected error
           | S _ => Pending
           end, w)
      | SpawnFails errno error =>
          let '(child, w1) := spawn command w in
          let w2 := addListener SpawnListener child
                      (addListener ErrorListener child w1) in
          (* the runtime records the failure, then emits 'error': handleError *)
          let w3 := updChild (withExit (Some errno) None) child w2 in
          let w4 := removeListener SpawnListener child
                      (removeListener ErrorListener child w3) in
          if isENOENT error
          then trySpawnFrom outcome rest' (S index) w4
          else (Rejected error, w4)
      | SpawnOk =>
          let '(child, w1) := spawn command w in
          let w2 := addListener SpawnListener child
                      (addListener ErrorListener child w1) in
          (* 'spawn' is emitted: handleSpawn *)
          (Fulfilled, handleSpawn child (removeListener SpawnListener child w2))
      end
  end.

Definition trySpawn (outcome : nat -> jsstring -> SpawnOutcome)
    (cmds : list jsstring) (index : nat) (w : World) : Promise * World :=
  trySpawnFrom outcome (drop index cmds) index w.

Definition startBackend (sys : System) (w : World) : Promise * World :=
  match pythonProcess w with
  | Some _ => (Fulfilled, w)
  | None =>
      if negb (scriptExists sys) then (Rejected EntryPointNotFound, w)
      else trySpawn (spawnOutcome sys)
             (candidateCommands (envPYTHON sys) (platform sys)) 0 w
  end.

(** The commands [spawn] was called with between two worlds. *)
Definition attempted (w w' : World) : list jsstring :=
  spawnfile <$> drop (length (children w)) (children w').

(* ================================================================== *)
(** ** [waitForBackendReady] *)

(** One turn of the polling loop as the environment shapes it: what the
    request delivers, which handlers run and how far the clock advances
    while the function is suspended on the ping and then on the timer. *)
Record Iteration := mkIteration {
  requestEvents : list HttpEvent;
  duringPing : list Event;
  pingMs : Z;
  duringSleep : list Event;
  sleepMs : Z
}.

Definition Ready : Promise := Fulfilled.
Definition ChildExited : Promise :=
  Rejected (ThrownError (newError MsgExitedBeforeReady)).
Definition TimedOut : Promise :=
  Rejected (ThrownError (newError MsgTimedOut)).

(** [!pythonProcess || pythonProcess.exitCode !== null] *)
Definition childGone (w : World) : bool :=
  match pythonProcess w with
  | None => true
  | Some r => bool_decide (exitCode (getChild w r) <> None)
  end.

(** The loop from a test of its condition at time [now]. The result is the
    settled promise, the world and the time at which it settles; [None]
    when the trace ends with the function still suspended. *)
Fixpoint waitLoop (start now : Z) (tr : list Iteration) (w : World)
  : option (Promise * World * Z) :=
  if now - start <? BACKEND_TIMEOUT_MS then
    match tr with
    | [] => None
    | it :: tr' =>
        let w1 := dispatchAll (duringPing it) w in
        let now1 := now + pingMs it in
        match pingBackend (requestEvents it) with
        | Pending => None
        | Fulfilled => Some (Ready, setBackendReady true w1, now1)
        | Rejected _ =>
            if childGone w1 then Some (ChildExited, w1, now1)
            else waitLoop start (now1 + sleepMs it) tr'
                   (dispatchAll (duringSleep it) w1)
        end
    end
  else Some (TimedOut, w, now).

Definition waitForBackendReady (start : Z) (tr : list Iteration) (w : World)
  : option (Promise * World * Z) :=
  waitLoop start start tr w.

(* ================================================================== *)
(** ** Runs of the whole program *)

Inductive Action :=
| DoEvent (ev : Event)
| DoStartBackend (sys : System)
| DoWaitForBackendReady (start : Z) (tr : list Iteration).

(** A wait that never settles writes nothing itself; the handlers that run
    in the meantime are [DoEvent] actions of their own. *)
Definition perform (a : Action) (w : World) : World :=
  match a with
  | DoEvent ev => dispatch ev w
  | DoStartBackend sys => snd (startBackend sys w)
  | DoWaitForBackendReady start tr =>
      match waitForBackendReady start tr w with
      | Some (_, w', _) => w'
      | None => w
      end
  end.

Definition run (acts : list Action) (w : World) : World :=
  foldl (fun w a => perform a w) w acts.

Definition reachable (w : World) : Prop :=
  exists acts, w = run acts initialWorld.

(* ================================================================== *)
(** ** Vocabulary of the statements *)

(** Only white space. *)
Definition blank (s : jsstring) : Prop :=
  Forall (fun c => isWhiteSpace c = true) s.

(** The first code unit of [s], if any, is not white space. *)
Definition startsClean (s : jsstring) : Prop :=
  forall c, head s = Some c -> isWhiteSpace c = false.

Definition endsClean (s : jsstring) : Prop :=
  forall c, last s = Some c -> isWhiteSpace c = false.

(** [cmds !! i] exists and its spawn fails with a not-found error. *)
Definition notFoundAt (outcome : nat -> jsstring -> SpawnOutcome)
    (cmds : list jsstring) (i : nat) : Prop :=
  exists cmd e,
    cmds !! i = Some cmd /\
    (exists errno, outcome i cmd = SpawnFails errno e) /\ isENOENT e = true.

(** The objects left by the leading candidates that fail with a not-found
    error: those the loop passes over before it stops. *)
Fixpoint notFoundChildren (outcome : nat -> jsstring -> SpawnOutcome)
    (index : nat) (rest : list jsstring) : list ChildProcess :=
  match rest with
  | [] => []
  | command :: rest' =>
      match outcome index command with
      | SpawnFails errno error =>
          if isENOENT error
          then failedChild command errno :: notFoundChildren outcome (S index) rest'
          else []
      | _ => []
      end
  end.

(** The commands of all child objects, in creation order. *)
Definition commands (w : World) : list jsstring := spawnfile <$> children w.

(** A child that has spawned, is still watched by the exit listener and has
    not exited. *)
Definition supervised (w : World) (r : nat) : Prop :=
  (r < length (children w))%nat /\
  ExitListener ∈ listeners (getChild w r) /\
  exited (getChild w r) = false.

(** The handle names a supervised child on which [kill] has not succeeded,
    and no other child is supervised. *)
Record wf_world (w : World) : Prop := mkWf {
  wf_handle : forall r, pythonProcess w = Some r ->
      supervised w r /\ killed (getChild w r) = false;
  wf_single : forall r, supervised w r -> pythonProcess w = Some r
}.

(** The probe of this turn fails. *)
Definition pingFails (it : Iteration) : Prop :=
  exists reason, pingBackend (requestEvents it) = Rejected reason.

(** No handler runs while the wait is suspended in this turn. *)
Definition quiet (it : Iteration) : Prop :=
  duringPing it = [] /\ duringSleep it = [].

(** A turn of a wait nobody answers and nothing disturbs: the probe fails
    after at most [cycle - sleepMs] milliseconds and the timer fires no
    earlier than the poll interval. *)
Definition idleTurn (cycle : Z) (it : Iteration) : Prop :=
  pingFails it /\ quiet it /\
  0 <= pingMs it /\ BACKEND_CHECK_INTERVAL_MS <= sleepMs it /\
  pingMs it + sleepMs it <= cycle.

(** The child [r] exists and its exit listener is not attached. *)
Definition unwatched (r : nat) (w : World) : Prop :=
  (r < length (children w))%nat /\
  ExitListener ∉ listeners (getChild w r).

(* ================================================================== *)
(** ** Sample environments *)

Module Sample.

(** A machine on which every command spawns. *)
Definition sysOk : System :=
  mkSystem true None (lit "linux") (fun _ _ => SpawnOk).

(** The world after a successful launch from the initial world. *)
Definition liveWorld : World := snd (startBackend sysOk initialWorld).

Definition sysError (code text : string) : Thrown :=
  ThrownError (mkErr (Some (lit code)) (MsgRuntime (lit text))).

Definition enoent : Thrown := sysError "ENOENT" "spawn ENOENT".
Definition eacces : Thrown := sysError "EACCES" "spawn EACCES".
Definition econnrefused : Thrown := sysError "ECONNREFUSED" "connect ECONNREFUSED".

(** PYTHON names a file that may not be executed; python3 is installed. *)
Definition sysDenied : System :=
  mkSystem true (Some (lit "  /opt/py/python ")) (lit "linux")
    (fun i _ => match i with O => SpawnFails (-13) eacces | _ => SpawnOk end).

(** No interpreter anywhere. *)
Definition sysNone : System :=
  mkSystem true None (lit "win32") (fun _ _ => SpawnFails (-4058) enoent).

(** python3 is missing, python is installed. *)
Definition sysSecond : System :=
  mkSystem true None (lit "linux")
    (fun i _ => match i with O => SpawnFails (-2) enoent | _ => SpawnOk end).

(** The backend answers 200 after 12 ms. *)
Definition readyTurn : Iteration :=
  mkIteration [HttpResponse (Some 200) (lit "{}")] [] 12 [] 1000.

(** The connection is refused after 2999 ms; the timer takes 1000 ms. *)
Definition slowTurn : Iteration :=
  mkIteration [HttpError econnrefused] [] 2999 [] 1000.

(** The request times out after 3000 ms; the timer takes 1000 ms. *)
Definition timeoutTurn : Iteration :=
  mkIteration [HttpTimeout] [] 3000 [] 1000.

(** The child exits with code 1 while the probe is in flight; the
    connection is refused after 7 ms. *)
Definition crashTurn : Iteration :=
  mkIteration [HttpError econnrefused] [ChildExit 0 (ExitedWith 1)] 7 [] 1000.

End Sample.

Module SampleThrow.
Import Sample.

Definition eloop : Thrown := sysError "ELOOP" "spawn ELOOP".

(** python3 is missing and the path of python runs into a loop of symbolic
    links: the first [spawn] is reported as not found, the second throws. *)
Definition sysLoop : System :=
  mkSystem true None (lit "linux")
    (fun i _ => match i with
                | O => SpawnFails (-2) enoent
                | _ => SpawnThrows eloop
                end).

(** The same failure met at the first candidate. *)
Definition sysLoopFirst : System :=
  mkSystem true None (lit "linux") (fun _ _ => SpawnThrows eloop).

(** The same failure reported through the ['error'] event instead. *)
Definition sysDeniedSecond : System :=
  mkSystem true None (lit "linux")
    (fun i _ => match i with
                | O => SpawnFails (-2) enoent
                | _ => SpawnFails (-13) eacces
                end).

End SampleThrow.

(* ================================================================== *)
(** ** [logBackendOutput] and [showStartupError] *)

(** [text] is [data.toString()]; the result is what is written to the
    standard output, if anything. *)
Definition logBackendOutput (prefix text : jsstring) : option jsstring :=
  if 0 <? Z.of_nat (length (trim text))
  then Some (lit "[backend " ++ prefix ++ lit "] " ++ text)
  else None.

(** [error instanceof Error ? error.message : String(error)] *)
Inductive StartupText :=
| ErrorMessage (m : Message)
| StringOfValue.

Definition startupMessage (error : Thrown) : StartupText :=
  match error with
  | ThrownError e => ErrorMessage (errMessage e)
  | ThrownFalsy => StringOfValue
  end.

(* ================================================================== *)
(** ** The application around the supervisor

    The window layer and the launcher, over the supervisor's [World].
    Windows are numbered in creation order. [openWindows] is
    [BrowserWindow.getAllWindows()]; [pendingShow] lists the windows whose
    [once('ready-to-show')] listener has not fired; [waitingActivations]
    counts the readiness waits started by the activate handler that have
    not settled. [app.quit()] and the dialogs of this layer are logged in
    [uiLog].

    A wait started by the activate handler is run where it settles
    ([activateSettled]): the supervisor's handlers that ran during it are
    those of its trace, and the handlers of this layer that ran meanwhile
    are the actions between [ActivateBegin] and [ActivateSettled]; they
    do not touch what the wait reads. *)

Inductive UiEffect :=
| SetAppUserModelId
| StartupErrorBox (message : StartupText)
| LoadErrorBox (message : jsstring)
| QuitRequested
| WindowShown (id : nat)
| WindowRestored (id : nat)
| WindowFocused (id : nat).

Record App := mkApp {
  hostPlatform : jsstring;
  world : World;
  mainWindow : option nat;
  openWindows : list nat;
  createdWindows : nat;
  pendingShow : list nat;
  activateListening : bool;
  waitingActivations : nat;
  uiLog : list UiEffect
}.

Definition initialApp (platform : jsstring) : App :=
  mkApp platform initialWorld None [] 0 [] false 0 [].

Definition setWorld (w : World) (a : App) : App :=
  mkApp (hostPlatform a) w (mainWindow a) (openWindows a) (createdWindows a)
        (pendingShow a) (activateListening a) (waitingActivations a) (uiLog a).
Definition setActivateListening (b : bool) (a : App) : App :=
  mkApp (hostPlatform a) (world a) (mainWindow a) (openWindows a)
        (createdWindows a) (pendingShow a) b (waitingActivations a) (uiLog a).
Definition setWaitingActivations (n : nat) (a : App) : App :=
  mkApp (hostPlatform a) (world a) (mainWindow a) (openWindows a)
        (createdWindows a) (pendingShow a) (activateListening a) n (uiLog a).
Definition logUi (e : UiEffect) (a : App) : App :=
  mkApp (hostPlatform a) (world a) (mainWindow a) (openWindows a)
        (createdWindows a) (pendingShow a) (activateListening a)
        (waitingActivations a) (uiLog a ++ [e]).

Definition createMainWindow (a : App) : App :=
  match mainWindow a with
  | Some _ => a
  | None =>
      let id := createdWindows a in
      mkApp (hostPlatform a) (world a) (Some id) (openWindows a ++ [id]) (S id)
            (pendingShow a ++ [id]) (activateListening a)
            (waitingActivations a) (uiLog a)
  end.

Definition showStartupError (error : Thrown) : App -> App :=
  logUi (StartupErrorBox (startupMessage error)).

Definition quit : App -> App := logUi QuitRequested.

(** [launchApplication]. The flag tells whether the function has returned:
    it has not when the wait stays suspended. *)
Definition launchApplication (sys : System) (start : Z) (tr : list Iteration)
    (a : App) : App * bool :=
  match startBackend sys (world a) with
  | (Fulfilled, w1) =>
      match waitForBackendReady start tr w1 with
      | Some (Fulfilled, w2, _) => (createMainWindow (setWorld w2 a), true)
      | Some (Rejected error, w2, _) =>
          (quit (showStartupError error (setWorld w2 a)), true)
      | Some (Pending, _, _) | None => (setWorld w1 a, false)
      end
  | (Rejected error, w1) => (quit (showStartupError error (setWorld w1 a)), true)
  | (Pending, w1) => (setWorld w1 a, false)
  end.

(** The launch reads [process.platform] of the host. *)
Definition onHost (a : App) (sys : System) : System :=
  mkSystem (scriptExists sys) (envPYTHON sys) (hostPlatform a) (spawnOutcome sys).

(** The continuation of [app.whenReady()]. *)
Definition whenReady (sys : System) (start : Z) (tr : list Iteration)
    (a : App) : App :=
  let a1 := if bool_decide (hostPlatform a = lit "win32")
            then logUi SetAppUserModelId a else a in
  let '(a2, returned) := launchApplication (onHost a sys) start tr a1 in
  if returned then setActivateListening true a2 else a2.

(** The activate handler up to the start of its wait. *)
Definition activateBegin (a : App) : App :=
  if activateListening a then
    match openWindows a with
    | [] =>
        if backendReady (world a) then createMainWindow a
        else setWaitingActivations (S (waitingActivations a)) a
    | _ :: _ => a
    end
  else a.

(** One of the waits of the activate handler settles: [then] or [catch]. *)
Definition activateSettled (start : Z) (tr : list Iteration) (a : App) : App :=
  match waitingActivations a with
  | O => a
  | S n =>
      match waitForBackendReady start tr (world a) with
      | Some (Fulfilled, w', _) =>
          let a' := setWaitingActivations n (setWorld w' a) in
          match openWindows a' with
          | [] => createMainWindow a'
          | _ :: _ => a'
          end
      | Some (Rejected error, w', _) =>
          quit (showStartupError error (setWaitingActivations n (setWorld w' a)))
      | Some (Pending, _, _) | None => a
      end
  end.

(** [minimized] is the answer of [mainWindow.isMinimized()]. *)
Definition secondInstance (minimized : bool) (a : App) : App :=
  match mainWindow a with
  | Some m =>
      logUi (WindowFocused m)
        (if minimized then logUi (WindowRestored m) a else a)
  | None => a
  end.

Definition windowAllClosed (a : App) : App :=
  if bool_decide (hostPlatform a <> lit "darwin") then quit a else a.

Definition readyToShow (id : nat) (a : App) : App :=
  if bool_decide (id ∈ pendingShow a) then
    let a1 := mkApp (hostPlatform a) (world a) (mainWindow a) (openWindows a)
                (createdWindows a) (filter (fun i => i <> id) (pendingShow a))
                (activateListening a) (waitingActivations a) (uiLog a) in
    match mainWindow a1 with
    | Some m => logUi (WindowShown m) a1
    | None => a1
    end
  else a.

(** The runtime takes the window out of the list of windows, then emits
    ['closed']. *)
Definition windowClosed (id : nat) (a : App) : App :=
  if bool_decide (id ∈ openWindows a) then
    mkApp (hostPlatform a) (world a) None
          (filter (fun i => i <> id) (openWindows a)) (createdWindows a)
          (pendingShow a) (activateListening a) (waitingActivations a) (uiLog a)
  else a.

(** The promise of [loadURL] of a window rejects. *)
Definition loadFailed (id : nat) (message : jsstring) (a : App) : App :=
  if bool_decide (id < createdWindows a)%nat
  then logUi (LoadErrorBox message) a else a.

Inductive AppAction :=
| OnEvent (ev : Event)
| WhenReady (sys : System) (start : Z) (tr : list Iteration)
| ActivateBegin
| ActivateSettled (start : Z) (tr : list Iteration)
| SecondInstance (minimized : bool)
| WindowAllClosed
| ReadyToShow (id : nat)
| WindowClosed (id : nat)
| LoadFailed (id : nat) (message : jsstring).

Definition performApp (act : AppAction) (a : App) : App :=
  match act with
  | OnEvent ev => setWorld (dispatch ev (world a)) a
  | WhenReady sys start tr => whenReady sys start tr a
  | ActivateBegin => activateBegin a
  | ActivateSettled start tr => activateSettled start tr a
  | SecondInstance minimized => secondInstance minimized a
  | WindowAllClosed => windowAllClosed a
  | ReadyToShow id => readyToShow id a
  | WindowClosed id => windowClosed id a
  | LoadFailed id message => loadFailed id message a
  end.

Definition runApp (acts : list AppAction) (a : App) : App :=
  foldl (fun a act => performApp act a) a acts.

(* ================================================================== *)
(** ** Further vocabulary *)

(** The time a list of turns takes when each runs to its timer. *)
Definition elapsedOf (turns : list Iteration) : Z :=
  foldr (fun it acc => pingMs it + sleepMs it + acc) 0 turns.

(** The supervisor's handlers that run during a turn. *)
Definition turnEvents (it : Iteration) : list Event :=
  duringPing it ++ duringSleep it.

(** A turn whose probe fails while nothing else happens. *)
Definition failedTurn (it : Iteration) : Prop :=
  pingFails it /\ quiet it /\ 0 <= pingMs it /\ 0 <= sleepMs it.

(** How often [kill] was called on the child [r]. *)
Fixpoint killCount (r : nat) (log : list Effect) : nat :=
  match log with
  | [] => 0
  | KillRequested r' :: log' =>
      (if bool_decide (r' = r) then 1 else 0) + killCount r log'
  | _ :: log' => killCount r log'
  end.

(** [kill] was called at most once on each child, and only on children
    whose exit listener is detached. *)
Definition killDiscipline (w : World) : Prop :=
  forall r,
    (killCount r (effects w) <= 1)%nat /\
    ((1 <= killCount r (effects w))%nat -> unwatched r w).

(** The open windows are the main window alone, if there is one. *)
Definition oneWindow (a : App) : Prop :=
  openWindows a = match mainWindow a with Some m => [m] | None => [] end.

(** No child object, no window, no wait of an activation, and the activate
    handler not registered. *)
Definition dormant (a : App) : Prop :=
  children (world a) = [] /\ pythonProcess (world a) = None /\
  mainWindow a = None /\ openWindows a = [] /\ createdWindows a = 0%nat /\
  pendingShow a = [] /\ activateListening a = false /\
  waitingActivations a = 0%nat.

Definition isWhenReady (act : AppAction) : bool :=
  match act with
  | WhenReady _ _ _ => true
  | _ => false
  end.

(** The reason shown by the crash dialog: the exit code when there is one,
    the signal otherwise. *)
Definition exitReason (st : ExitStatus) : ExitReason :=
  match st with
  | ExitedWith code => ByCode code
  | KilledBy signal => BySignal signal
  end.

Module SampleApp.
Import Sample.

(** The application on Linux after a launch that found the backend ready. *)
Definition readyApp : App :=
  whenReady sysOk 0 [readyTurn] (initialApp (lit "linux")).

(** The entry script is missing. *)
Definition sysNoScript : System :=
  mkSystem false None (lit "linux") (fun _ _ => SpawnOk).

(** Two refused probes, then a 200 that arrives after the deadline. *)
Definition lateTurn : Iteration :=
  mkIteration [HttpResponse (Some 204) []] [] 2500 [] 1000.

Definition refusedTurn : Iteration :=
  mkIteration [HttpError econnrefused] [] 20 [] 1000.

(** The world after a launch whose first candidate was not found. *)
Definition secondWorld : World := snd (startBackend sysSecond initialWorld).

(** What may arrive before the ready handler has run. *)
Definition earlyActs : list AppAction :=
  [ActivateBegin; SecondInstance true; OnEvent Sigint;
   ActivateSettled 0 [readyTurn]; WindowClosed 0; ReadyToShow 0;
   OnEvent (ChildExit 0 (ExitedWith 0)); WindowAllClosed;
   OnEvent (BeforeQuit KillDelivered)].

End SampleApp.

(* ================================================================== *)
(** * Properties *)

(** ** Strings *)

Section Trim.

Lemma trimStart_split (s : jsstring) :
  exists pre, s = pre ++ trimStart s /\ blank pre /\ startsClean (trimStart s).
Proof.
  induction s as [|c s IH]; simpl.
  - exists []. repeat split; [constructor | intros c; discriminate].
  - destruct (isWhiteSpace c) eqn:Hc.
    + destruct IH as (pre & Heq & Hpre & Hclean).
      exists (c :: pre). repeat split; [simpl; congruence | by constructor | done].
    + exists []. repeat split; [constructor |].
      intros c' [= <-]. exact Hc.
Qed.

Lemma trimEnd_split (s : jsstring) :
  exists post, s = trimEnd s ++ post /\ blank post /\ endsClean (trimEnd s).
Proof.
  unfold trimEnd.
  destruct (trimStart_split (reverse s)) as (pre & Heq & Hpre & Hclean).
  exists (reverse pre). repeat split.
  - rewrite <- reverse_app, <- Heq. by rewrite reverse_involutive.
  - unfold blank. by apply Forall_reverse.
  - intros c Hc. apply Hclean. by rewrite <- last_reverse.
Qed.

Lemma trimStart_blank (s : jsstring) : blank s -> trimStart s = [].
Proof.
  induction 1 as [|c s Hc _ IH]; simpl; [done|]. by rewrite Hc.
Qed.

Lemma trim_blank (s : jsstring) : blank s -> trim s = [].
Proof.
  intros H. unfold trim. by rewrite (trimStart_blank s H).
Qed.

Lemma trim_split (s : jsstring) :
  exists pre post,
    s = pre ++ trim s ++ post /\ blank pre /\ blank post /\
    startsClean (trim s) /\ endsClean (trim s).
Proof.
  destruct (trimStart_split s) as (pre & Hs & Hpre & Hstart).
  destruct (trimEnd_split (trimStart s)) as (post & Ht & Hpost & Hend).
  exists pre, post. fold (trim s) in Ht, Hend.
  repeat split; try done.
  - by rewrite <- Ht.
  - intros c Hc. apply Hstart. rewrite Ht.
    destruct (trim s); [discriminate | exact Hc].
Qed.

End Trim.

(** ** Candidate commands *)

Lemma defaultCommands_cases (platform : jsstring) :
  (platform = lit "win32" /\
   defaultCommands platform = [lit "python"; lit "python3"]) \/
  (platform <> lit "win32" /\
   defaultCommands platform = [lit "python3"; lit "python"]).
Proof.
  unfold defaultCommands. case_bool_decide; [left | right]; done.
Qed.

Lemma overrideCommands_trim (v : jsstring) :
  overrideCommands (Some v) = if trim v is [] then [] else [trim v].
Proof.
  unfold overrideCommands.
  destruct v as [|c v].
  - reflexivity.
  - cbn [truthy andb]. destruct (trim (c :: v)); reflexivity.
Qed.

(** C10. When PYTHON is set, the value with its surrounding white space
    removed is the first candidate, followed by the platform defaults; a
    value made of white space only (or empty) counts as absent, so that the
    candidates are the platform defaults alone: python, python3 on win32
    and python3, python elsewhere. *)
Theorem candidateCommands_override (v platform : jsstring) :
  (exists pre post,
      v = pre ++ trim v ++ post /\ blank pre /\ blank post /\
      startsClean (trim v) /\ endsClean (trim v)) /\
  (trim v <> [] ->
     candidateCommands (Some v) platform = trim v :: defaultCommands platform) /\
  (blank v ->
     candidateCommands (Some v) platform = candidateCommands None platform) /\
  candidateCommands None platform = defaultCommands platform /\
  defaultCommands platform =
    (if bool_decide (platform = lit "win32")
     then [lit "python"; lit "python3"] else [lit "python3"; lit "python"]).
Proof.
  split; [apply trim_split|].
  unfold candidateCommands. rewrite overrideCommands_trim.
  repeat split.
  - intros Hne. destruct (trim v); [done | reflexivity].
  - intros Hb. by rewrite (trim_blank v Hb).
Qed.

(** ** The health probe *)

Lemma settled_stays (p : Promise) (evs : list HttpEvent) :
  p <> Pending -> foldl pingStep p evs = p.
Proof.
  revert p. induction evs as [|ev evs IH]; intros p Hp; simpl; [done|].
  assert (pingStep p ev = p) as ->.
  { destruct p; [done | |]; destruct ev; simpl;
      try destruct (statusReady _); reflexivity. }
  by apply IH.
Qed.

Lemma pingBackend_first (ev : HttpEvent) (rest : list HttpEvent) :
  pingBackend (ev :: rest) = pingStep Pending ev.
Proof.
  unfold pingBackend. simpl. apply settled_stays.
  destruct ev; simpl; try destruct (statusReady _); discriminate.
Qed.

Lemma statusReady_range (sc : option Z) :
  statusReady sc = true <-> exists c, sc = Some c /\ 200 <= c <= 399.
Proof.
  unfold statusReady. split.
  - destruct sc as [c|]; [|discriminate]. intros H. exists c. split; [done|lia].
  - intros (c & -> & Hc).
    replace (c =? 0) with false by lia. simpl. lia.
Qed.

Lemma pingBackend_ready_or_rejected (ev : HttpEvent) (rest : list HttpEvent) :
  pingBackend (ev :: rest) = Fulfilled \/
  exists reason, pingBackend (ev :: rest) = Rejected reason.
Proof.
  rewrite pingBackend_first.
  destruct ev as [sc body| |]; simpl; eauto.
  destruct (statusReady sc); eauto.
Qed.

(** C8. A probe fulfils exactly when the first thing the request delivers
    is a response with a status code from 200 to 399, whatever the body
    and whatever follows; any other response, an error or the request
    timeout rejects it. Nothing is settled before the first event. *)
Theorem pingBackend_ready_iff (ev : HttpEvent) (rest : list HttpEvent) :
  (pingBackend (ev :: rest) = Fulfilled <->
     exists c body, ev = HttpResponse (Some c) body /\ 200 <= c <= 399) /\
  (pingBackend (ev :: rest) = Fulfilled \/
     exists reason, pingBackend (ev :: rest) = Rejected reason) /\
  pingBackend [] = Pending.
Proof.
  split; [|split; [apply pingBackend_ready_or_rejected | done]].
  rewrite pingBackend_first. split.
  - destruct ev as [sc body| |]; simpl; try discriminate.
    destruct (statusReady sc) eqn:Hs; [|discriminate]. intros _.
    apply statusReady_range in Hs as (c & -> & Hc). eauto.
  - intros (c & body & -> & Hc). cbn [pingStep].
    assert (statusReady (Some c) = true) as ->; [|done].
    apply statusReady_range. eauto.
Qed.

(** ** The policy constants *)

(** C9, as stated, asks for a request timeout shorter than the poll
    interval. The request timeout is the longer of the two. *)
Lemma request_timeout_not_shorter_than_interval :
  ~ (PING_REQUEST_TIMEOUT_MS < BACKEND_CHECK_INTERVAL_MS).
Proof. unfold PING_REQUEST_TIMEOUT_MS, BACKEND_CHECK_INTERVAL_MS. lia. Qed.

(** C9 (amended). The poll interval is one second, the overall readiness
    timeout is three minutes, and the timeout of one request is three
    seconds: three poll intervals, and a sixtieth of the overall timeout. *)
Theorem policy_constants :
  BACKEND_CHECK_INTERVAL_MS = 1000 /\
  BACKEND_TIMEOUT_MS = 3 * 60 * 1000 /\
  PING_REQUEST_TIMEOUT_MS = 3 * BACKEND_CHECK_INTERVAL_MS /\
  BACKEND_TIMEOUT_MS = 60 * PING_REQUEST_TIMEOUT_MS.
Proof. repeat split. Qed.

(** ** The store of child objects *)

Section Store.

Implicit Types (w : World) (r : nat) (f : ChildProcess -> ChildProcess).

Lemma length_children_updChild f r w :
  length (children (updChild f r w)) = length (children w).
Proof. unfold updChild. simpl. apply length_alter. Qed.

Lemma commands_updChild f r w :
  (forall c, spawnfile (f c) = spawnfile c) ->
  commands (updChild f r w) = commands w.
Proof.
  intros Hf. unfold commands, updChild. simpl.
  rewrite (list_fmap_alter spawnfile f id).
  - generalize (spawnfile <$> children w). clear. intros l. revert r.
    induction l as [|x l IH]; intros [|r]; simpl; try done.
    f_equal. apply IH.
  - apply Forall_forall. intros c _. apply Hf.
Qed.

Lemma getChild_updChild f r r' w :
  getChild (updChild f r w) r' =
    if decide (r = r' /\ (r < length (children w))%nat)
    then f (getChild w r') else getChild w r'.
Proof.
  unfold getChild, updChild. simpl. rewrite list_lookup_alter.
  destruct (decide (r = r')) as [->|Hne].
  - destruct (children w !! r') as [c|] eqn:Hc; simpl.
    + rewrite decide_True; [done|]. split; [done|]. by eapply lookup_lt_Some.
    + rewrite decide_False; [done|]. intros [_ Hlt].
      apply lookup_ge_None in Hc. lia.
  - rewrite decide_False; [done|]. by intros [? _].
Qed.

Lemma getChild_updChild_ne f r r' w :
  r <> r' -> getChild (updChild f r w) r' = getChild w r'.
Proof.
  intros Hne. rewrite getChild_updChild, decide_False; [done|]. by intros [? _].
Qed.

Lemma getChild_updChild_eq f r w :
  (r < length (children w))%nat ->
  getChild (updChild f r w) r = f (getChild w r).
Proof. intros Hlt. by rewrite getChild_updChild, decide_True. Qed.

Lemma attempted_commands w w' :
  attempted w w' = drop (length (children w)) (commands w').
Proof. unfold attempted, commands. apply fmap_drop. Qed.

End Store.

(** ** The spawn-fallback loop *)

Lemma notFoundAt_not_other outcome cmds i cmd :
  notFoundAt outcome cmds i -> cmds !! i = Some cmd ->
  exists errno e, outcome i cmd = SpawnFails errno e /\ isENOENT e = true.
Proof.
  intros (cmd' & e & Hcmd' & (errno & Hout) & He) Hcmd.
  assert (cmd' = cmd) as -> by congruence. eauto.
Qed.

Lemma attempted_app w w' (new : list jsstring) :
  commands w' = commands w ++ new -> attempted w w' = new.
Proof.
  intros H. rewrite attempted_commands, H.
  assert (length (children w) = length (commands w)) as ->.
  { unfold commands. by rewrite length_fmap. }
  apply drop_app_length.
Qed.

(** ** The launch guard *)

Lemma startBackend_guard (sys : System) (w : World) :
  is_Some (pythonProcess w) -> startBackend sys w = (Fulfilled, w).
Proof. intros [r Hr]. unfold startBackend. by rewrite Hr. Qed.

(** ** [stopBackend] *)

Section Stop.

Implicit Types (k : KillOutcome) (w : World) (r : nat).

Lemma stopBackend_normal k w : fst (stopBackend k w) = Normal tt.
Proof.
  unfold stopBackend. destruct (pythonProcess w) as [r|]; [|done].
  unfold bind, modify, tryCatch, kill, ret.
  destruct (negb _); [destruct k|]; reflexivity.
Qed.

Lemma stopBackend_none k w :
  pythonProcess w = None -> stopBackend k w = (Normal tt, w).
Proof. intros H. unfold stopBackend. by rewrite H. Qed.

Lemma killed_removeAllListeners r r' w :
  killed (getChild (removeAllListeners r w) r') = killed (getChild w r').
Proof.
  unfold removeAllListeners. rewrite getChild_updChild.
  by case_decide.
Qed.

(** The world a stop leaves behind, by the fate of [kill]. *)
Lemma stopBackend_some k w r :
  pythonProcess w = Some r ->
  snd (stopBackend k w) =
    setBackendReady false (setPythonProcess None
      (if killed (getChild w r) then removeAllListeners r w
       else match k with
            | KillDelivered =>
                updChild (withKilled true) r
                  (emit (KillRequested r) (removeAllListeners r w))
            | _ => emit (KillRequested r) (removeAllListeners r w)
            end)).
Proof.
  intros H. unfold stopBackend. rewrite H.
  unfold bind, modify, tryCatch, kill, ret. cbn [fst snd].
  rewrite killed_removeAllListeners.
  destruct (killed (getChild w r)); [|destruct k]; reflexivity.
Qed.

Lemma stopBackend_clears k w :
  pythonProcess (snd (stopBackend k w)) = None.
Proof.
  destruct (pythonProcess w) as [r|] eqn:H.
  - by rewrite (stopBackend_some k w r H).
  - by rewrite (stopBackend_none k w H).
Qed.

Lemma stopBackend_twice k k' w :
  stopBackend k' (snd (stopBackend k w)) = (Normal tt, snd (stopBackend k w)).
Proof. apply stopBackend_none, stopBackend_clears. Qed.

Lemma stopBackend_detaches k w r :
  pythonProcess w = Some r ->
  listeners (getChild (snd (stopBackend k w)) r) = [].
Proof.
  intros H. rewrite (stopBackend_some k w r H).
  assert (listeners (getChild (removeAllListeners r w) r) = []) as Hrm.
  { unfold removeAllListeners. rewrite getChild_updChild.
    case_decide as Hd; [done|].
    unfold getChild. destruct (children w !! r) as [c|] eqn:Hc; [|done].
    exfalso. apply Hd. split; [done|]. by eapply lookup_lt_Some. }
  destruct (killed (getChild w r)); [exact Hrm|].
  destruct k; try exact Hrm.
  change (listeners (getChild (updChild (withKilled true) r
            (emit (KillRequested r) (removeAllListeners r w))) r) = []).
  rewrite getChild_updChild. case_decide; exact Hrm.
Qed.

Lemma stopBackend_effects k w r :
  pythonProcess w = Some r -> killed (getChild w r) = false ->
  effects (snd (stopBackend k w)) = effects w ++ [KillRequested r].
Proof.
  intros H Hk. rewrite (stopBackend_some k w r H), Hk.
  destruct k; reflexivity.
Qed.

End Stop.

(** ** One attempt of the launch, in closed form *)

Section Attempt.

Implicit Types (w : World) (c : ChildProcess) (l : list ChildProcess).

Lemma updChild_new f l c w :
  updChild f (length l) (setChildren (l ++ [c]) w) = setChildren (l ++ [f c]) w.
Proof.
  unfold updChild, setChildren. cbn [children pythonProcess backendReady isQuitting effects].
  f_equal. rewrite <- (Nat.add_0_r (length l)). by rewrite alter_app_r.
Qed.

Lemma attempt_failed command errno w :
  removeListener SpawnListener (length (children w))
    (removeListener ErrorListener (length (children w))
       (updChild (withExit (Some errno) None) (length (children w))
          (addListener SpawnListener (length (children w))
             (addListener ErrorListener (length (children w))
                (setChildren (children w ++ [freshChild command []]) w)))))
  = setChildren (children w ++ [failedChild command errno]) w.
Proof.
  unfold removeListener, addListener. by rewrite !updChild_new.
Qed.

Lemma attempt_spawned command w :
  handleSpawn (length (children w))
    (removeListener SpawnListener (length (children w))
       (addListener SpawnListener (length (children w))
          (addListener ErrorListener (length (children w))
             (setChildren (children w ++ [freshChild command []]) w))))
  = mkWorld (Some (length (children w))) false (isQuitting w)
      (children w ++ [freshChild command [ExitListener]]) (effects w).
Proof.
  unfold handleSpawn, removeListener, addListener. rewrite !updChild_new.
  set (c := withListeners _ _).
  change (setBackendReady false (setPythonProcess (Some (length (children w)))
            (setChildren (children w ++ [c]) w)))
    with (setChildren (children w ++ [c])
            (mkWorld (Some (length (children w))) false (isQuitting w)
               (children w) (effects w))).
  change (length (children w)) with
    (length (children (mkWorld (Some (length (children w))) false (isQuitting w)
               (children w) (effects w)))) at 1.
  by rewrite updChild_new.
Qed.

Lemma getChild_new l c w r :
  children w = l ++ [c] ->
  getChild w r =
    if decide (r < length l)%nat then default blankChild (l !! r)
    else if decide (r = length l) then c else blankChild.
Proof.
  intros Hw. unfold getChild. rewrite Hw.
  case_decide as Hlt.
  - by rewrite lookup_app_l.
  - rewrite lookup_app_r by lia. case_decide as Heq.
    + subst. by rewrite Nat.sub_diag.
    + destruct (r - length l)%nat as [|n] eqn:Hn; [lia|]. done.
Qed.

End Attempt.

(** ** The launch, in closed form *)

Section LaunchWorld.

Variable outcome : nat -> jsstring -> SpawnOutcome.

Implicit Types (rest : list jsstring) (w : World).

Lemma setChildren_same w : setChildren (children w ++ []) w = w.
Proof. rewrite app_nil_r. by destruct w. Qed.

(** The loop stops at the first candidate that does not fail with a
    not-found error, or past the end; this is the world it leaves. *)
Lemma trySpawnFrom_closed rest : forall index w,
  trySpawnFrom outcome rest index w =
    match rest !! length (notFoundChildren outcome index rest) with
    | None =>
        (Rejected NoInterpreterFound,
         setChildren (children w ++ notFoundChildren outcome index rest) w)
    | Some cmd =>
        match outcome (index + length (notFoundChildren outcome index rest))%nat cmd with
        | SpawnOk =>
            (Fulfilled,
             mkWorld
               (Some (length (children w)
                      + length (notFoundChildren outcome index rest))%nat)
               false (isQuitting w)
               (children w ++ notFoundChildren outcome index rest
                  ++ [freshChild cmd [ExitListener]])
               (effects w))
        | SpawnFails errno e =>
            (Rejected e,
             setChildren (children w ++ notFoundChildren outcome index rest
                            ++ [failedChild cmd errno]) w)
        | SpawnThrows e =>
            (match (index + length (notFoundChildren outcome index rest))%nat with
             | O => Rejected e
             | S _ => Pending
             end,
             setChildren (children w ++ notFoundChildren outcome index rest) w)
        end
    end.
Proof.
  induction rest as [|c rest IH]; intros index w.
  - cbn. by rewrite setChildren_same.
  - cbn [trySpawnFrom spawn notFoundChildren].
    destruct (outcome index c) as [|errno e|e] eqn:Hout.
    + cbn [length lookup list_lookup]. rewrite Nat.add_0_r, Hout.
      rewrite attempt_spawned. by rewrite Nat.add_0_r.
    + rewrite attempt_failed. destruct (isENOENT e).
      * rewrite IH. cbn [length lookup list_lookup].
        replace (index + S (length (notFoundChildren outcome (S index) rest)))%nat
          with (S index + length (notFoundChildren outcome (S index) rest))%nat
          by lia.
        cbn [children setChildren isQuitting effects].
        rewrite length_app. cbn [length].
        replace (length (children w) + 1
                 + length (notFoundChildren outcome (S index) rest))%nat
          with (length (children w)
                + S (length (notFoundChildren outcome (S index) rest)))%nat
          by lia.
        unfold setChildren. cbn [pythonProcess backendReady isQuitting effects children].
        destruct (rest !! _) as [cmd|]; [destruct (outcome _ cmd)|];
          rewrite <- ?app_assoc; reflexivity.
      * cbn [length lookup list_lookup]. rewrite Nat.add_0_r, Hout. done.
    + cbn [length lookup list_lookup]. rewrite Nat.add_0_r, Hout.
      by rewrite setChildren_same.
Qed.

Lemma notFoundChildren_commands rest : forall index,
  spawnfile <$> notFoundChildren outcome index rest =
    take (length (notFoundChildren outcome index rest)) rest.
Proof.
  induction rest as [|c rest IH]; intros index; [done|].
  cbn [notFoundChildren]. destruct (outcome index c) as [|errno e|e]; try done.
  destruct (isENOENT e); [|done]. cbn. by rewrite IH.
Qed.

Lemma notFoundChildren_before rest : forall index j,
  (j < length (notFoundChildren outcome index rest))%nat ->
  exists c errno e,
    rest !! j = Some c /\ outcome (index + j)%nat c = SpawnFails errno e /\
    isENOENT e = true /\
    notFoundChildren outcome index rest !! j = Some (failedChild c errno).
Proof.
  induction rest as [|c rest IH]; intros index j; [cbn; lia|].
  cbn [notFoundChildren]. destruct (outcome index c) as [|errno e|e] eqn:Hout;
    try (cbn; lia).
  destruct (isENOENT e) eqn:He; [|cbn; lia].
  destruct j as [|j].
  - intros _. exists c, errno, e. by rewrite Nat.add_0_r.
  - cbn [length]. intros Hj. destruct (IH (S index) j ltac:(lia))
      as (c' & errno' & e' & Hc' & Hout' & He' & Hnf).
    exists c', errno', e'.
    by replace (index + S j)%nat with (S index + j)%nat by lia.
Qed.

Lemma notFoundChildren_stop rest : forall index c errno e,
  rest !! length (notFoundChildren outcome index rest) = Some c ->
  outcome (index + length (notFoundChildren outcome index rest))%nat c
    = SpawnFails errno e ->
  isENOENT e = false.
Proof.
  induction rest as [|c0 rest IH]; intros index c errno e; [done|].
  cbn [notFoundChildren]. destruct (outcome index c0) as [|errno0 e0|e0] eqn:Hout.
  - cbn. rewrite Nat.add_0_r. intros [= <-]. congruence.
  - destruct (isENOENT e0) eqn:He0.
    + cbn [length lookup list_lookup].
      replace (index + S (length (notFoundChildren outcome (S index) rest)))%nat
        with (S index + length (notFoundChildren outcome (S index) rest))%nat
        by lia.
      apply IH.
    + cbn. rewrite Nat.add_0_r. intros [= <-]. congruence.
  - cbn. rewrite Nat.add_0_r. intros [= <-]. congruence.
Qed.

Lemma notFoundChildren_listeners rest index :
  Forall (fun c => listeners c = []) (notFoundChildren outcome index rest).
Proof.
  revert index. induction rest as [|c rest IH]; intros index; [constructor|].
  cbn [notFoundChildren]. destruct (outcome index c) as [|errno e|e];
    try constructor.
  destruct (isENOENT e); constructor; [done | apply IH].
Qed.

(** The loop stops where the statement of a property says it does. *)
Lemma notFoundChildren_length (cmds : list jsstring) (m : nat) :
  (forall j, (j < m)%nat -> notFoundAt outcome cmds j) ->
  (m = length cmds \/
   exists cmd, cmds !! m = Some cmd /\
     forall errno e, outcome m cmd = SpawnFails errno e -> isENOENT e = false) ->
  length (notFoundChildren outcome 0 cmds) = m.
Proof.
  intros Hbefore Hstop.
  destruct (Nat.lt_trichotomy (length (notFoundChildren outcome 0 cmds)) m)
    as [Hlt | [Heq | Hgt]]; [exfalso | done | exfalso].
  - destruct (Hbefore _ Hlt) as (c & e & Hc & (errno & Hout) & He).
    pose proof (notFoundChildren_stop cmds 0 c errno e Hc Hout). congruence.
  - destruct (notFoundChildren_before cmds 0 m Hgt)
      as (c & errno & e & Hc & Hout & He & _).
    destruct Hstop as [-> | (cmd & Hcmd & Hnot)].
    + apply lookup_lt_Some in Hc. lia.
    + assert (cmd = c) as -> by congruence.
      pose proof (Hnot errno e Hout). congruence.
Qed.

(** Whatever the outcome, the launch extends the store and touches neither
    the quitting flag nor the log of effects. *)
Lemma trySpawnFrom_shape rest index w :
  exists p h b new,
    trySpawnFrom outcome rest index w =
      (p, mkWorld h b (isQuitting w) (children w ++ new) (effects w)).
Proof.
  rewrite trySpawnFrom_closed.
  destruct (rest !! _) as [cmd|]; [destruct (outcome _ cmd)|];
    unfold setChildren; eauto 10.
Qed.

End LaunchWorld.

(** Where the loop stops, and the commands [spawn] returned a child for. *)
Lemma trySpawn_attempted (outcome : nat -> jsstring -> SpawnOutcome)
    (cmds : list jsstring) (w : World) :
  attempted w (snd (trySpawn outcome cmds 0 w)) =
    take (match cmds !! length (notFoundChildren outcome 0 cmds) with
          | Some cmd =>
              match outcome (length (notFoundChildren outcome 0 cmds)) cmd with
              | SpawnThrows _ => length (notFoundChildren outcome 0 cmds)
              | _ => S (length (notFoundChildren outcome 0 cmds))
              end
          | None => length (notFoundChildren outcome 0 cmds)
          end) cmds.
Proof.
  unfold trySpawn. rewrite drop_0, trySpawnFrom_closed. cbn [Nat.add].
  pose proof (notFoundChildren_commands outcome cmds 0) as Hnf.
  destruct (cmds !! _) as [cmd|] eqn:Hcmd;
    [destruct (outcome _ cmd)|]; cbn [snd]; apply attempted_app;
    unfold commands; cbn [children setChildren];
    rewrite ?fmap_app, Hnf; try done.
  - by rewrite (take_S_r _ _ _ Hcmd).
  - by rewrite (take_S_r _ _ _ Hcmd).
Qed.

(** What the loop does with the failures the runtime reports through the
    ['error'] event. [spawn] returns a child for a prefix of the
    candidates, and a candidate is reached only when every candidate
    before it has failed with a not-found error. When the first candidate
    that does not fail so is reported to fail with another error, the
    launch is rejected with that very error and no later candidate is
    tried. When every candidate fails with a not-found error, the launch is
    rejected with the no-interpreter error. *)
Lemma trySpawn_fallback (outcome : nat -> jsstring -> SpawnOutcome)
    (cmds : list jsstring) (w : World) :
  (exists n, (n <= length cmds)%nat /\
     attempted w (snd (trySpawn outcome cmds 0 w)) = take n cmds /\
     forall j, (S j < n)%nat -> notFoundAt outcome cmds j) /\
  (forall i cmd errno e,
     cmds !! i = Some cmd ->
     (forall j, (j < i)%nat -> notFoundAt outcome cmds j) ->
     outcome i cmd = SpawnFails errno e -> isENOENT e = false ->
     fst (trySpawn outcome cmds 0 w) = Rejected e /\
     attempted w (snd (trySpawn outcome cmds 0 w)) = take (S i) cmds) /\
  ((forall j, (j < length cmds)%nat -> notFoundAt outcome cmds j) ->
     fst (trySpawn outcome cmds 0 w) = Rejected NoInterpreterFound /\
     attempted w (snd (trySpawn outcome cmds 0 w)) = cmds).
Proof.
  split; [|split].
  - eexists. split; [|split; [apply trySpawn_attempted|]].
    + destruct (cmds !! _) as [cmd|] eqn:Hcmd.
      * apply lookup_lt_Some in Hcmd. destruct (outcome _ cmd); lia.
      * apply lookup_ge_None in Hcmd.
        pose proof (f_equal length (notFoundChildren_commands outcome cmds 0)) as H.
        rewrite length_fmap, length_take in H. lia.
    + intros j Hj.
      assert (j < length (notFoundChildren outcome 0 cmds))%nat as Hlt.
      { destruct (cmds !! _) as [cmd|]; [destruct (outcome _ cmd)|]; lia. }
      destruct (notFoundChildren_before outcome cmds 0 j Hlt)
        as (c & errno & e & Hc & Hout & He & _).
      exists c, e. eauto.
  - intros i cmd errno e Hcmd Hbefore Hout He.
    assert (length (notFoundChildren outcome 0 cmds) = i) as Hlen.
    { apply notFoundChildren_length; [done|]. right. exists cmd.
      split; [done|]. intros errno' e' Hout'. congruence. }
    rewrite trySpawn_attempted. unfold trySpawn.
    rewrite drop_0, trySpawnFrom_closed. cbn [Nat.add].
    by rewrite Hlen, Hcmd, Hout.
  - intros Hall.
    assert (length (notFoundChildren outcome 0 cmds) = length cmds) as Hlen
      by (apply notFoundChildren_length; [done | by left]).
    rewrite trySpawn_attempted. unfold trySpawn.
    rewrite drop_0, trySpawnFrom_closed. cbn [Nat.add].
    rewrite Hlen, (proj2 (lookup_ge_None cmds (length cmds))) by lia.
    split; [done|]. by apply take_ge.
Qed.

(** A [spawn] that throws is turned into a rejection at the first candidate
    only; at a later candidate the promise is left pending. In both cases no
    child object is made for that candidate. *)
Lemma trySpawn_throw (outcome : nat -> jsstring -> SpawnOutcome)
    (cmds : list jsstring) (w : World) (i : nat) (cmd : jsstring) (e : Thrown) :
  cmds !! i = Some cmd ->
  (forall j, (j < i)%nat -> notFoundAt outcome cmds j) ->
  outcome i cmd = SpawnThrows e ->
  fst (trySpawn outcome cmds 0 w) =
    match i with O => Rejected e | S _ => Pending end /\
  attempted w (snd (trySpawn outcome cmds 0 w)) = take i cmds.
Proof.
  intros Hcmd Hbefore Hout.
  assert (length (notFoundChildren outcome 0 cmds) = i) as Hlen.
  { apply notFoundChildren_length; [done|]. right. exists cmd.
    split; [done|]. intros errno' e' Hout'. congruence. }
  rewrite trySpawn_attempted. unfold trySpawn.
  rewrite drop_0, trySpawnFrom_closed. cbn [Nat.add].
  by rewrite Hlen, Hcmd, Hout.
Qed.

(** ** The invariant of the handle *)

Section Invariant.

Implicit Types (k : KillOutcome) (w : World) (r : nat).

Lemma supervised_frame w w' r :
  children w' = children w -> supervised w' r <-> supervised w r.
Proof. intros H. unfold supervised, getChild. by rewrite H. Qed.

Lemma wf_frame w w' :
  pythonProcess w' = pythonProcess w -> children w' = children w ->
  wf_world w -> wf_world w'.
Proof.
  intros Hp Hc [Hh Hs]. split.
  - intros r Hr. rewrite Hp in Hr. destruct (Hh r Hr) as [Hsup Hk].
    split; [by apply (supervised_frame w w')|].
    unfold getChild in *. by rewrite Hc.
  - intros r Hr. rewrite Hp. apply Hs. by apply (supervised_frame w w').
Qed.

Lemma wf_initial : wf_world initialWorld.
Proof.
  split; [discriminate|]. intros r (Hlt & _). simpl in Hlt. lia.
Qed.

Lemma stopBackend_children k w r :
  pythonProcess w = Some r ->
  length (children (snd (stopBackend k w))) = length (children w) /\
  forall r', r' <> r -> getChild (snd (stopBackend k w)) r' = getChild w r'.
Proof.
  intros H. rewrite (stopBackend_some k w r H).
  destruct (killed (getChild w r)); [|destruct k]; split;
    try apply length_alter;
    try (cbn [children setBackendReady setPythonProcess updChild setChildren emit
              removeAllListeners]; by rewrite !length_alter).
  all: intros r' Hne.
  all: try (apply (getChild_updChild_ne (withListeners []) r r' w); congruence).
  change (getChild (updChild (withKilled true) r
            (emit (KillRequested r) (removeAllListeners r w))) r' = getChild w r').
  rewrite getChild_updChild_ne by congruence.
  apply (getChild_updChild_ne (withListeners []) r r' w). congruence.
Qed.

Lemma wf_stopBackend k w : wf_world w -> wf_world (snd (stopBackend k w)).
Proof.
  intros Hwf. destruct (pythonProcess w) as [r|] eqn:Hr.
  - destruct (stopBackend_children k w r Hr) as [Hlen Hothers].
    split.
    + intros r'. by rewrite stopBackend_clears.
    + intros r' (Hlt & Hl & He). exfalso.
      destruct (decide (r' = r)) as [->|Hne].
      * rewrite (stopBackend_detaches k w r Hr) in Hl. by apply elem_of_nil in Hl.
      * rewrite (Hothers r' Hne) in Hl, He. rewrite Hlen in Hlt.
        assert (pythonProcess w = Some r') as Hr'
          by (apply (wf_single w Hwf); done).
        congruence.
  - by rewrite (stopBackend_none k w Hr).
Qed.

Lemma exited_recordExit st c : exited (recordExit st c) = true.
Proof. destruct st; reflexivity. Qed.

Lemma pythonProcess_exitHandler st w : pythonProcess (exitHandler st w) = None.
Proof. unfold exitHandler. by destruct (negb _). Qed.

Lemma children_exitHandler st w : children (exitHandler st w) = children w.
Proof. unfold exitHandler. by destruct (negb _). Qed.

Lemma wf_dispatch ev w : wf_world w -> wf_world (dispatch ev w).
Proof.
  intros Hwf. destruct ev as [r st|k|k| |]; cbn [dispatch].
  - destruct (children w !! r) as [c|] eqn:Hc; [|done].
    destruct (exited c) eqn:Hex; [done|].
    pose proof (lookup_lt_Some _ _ _ Hc) as Hlt.
    assert (getChild w r = c) as Hget by (unfold getChild; by rewrite Hc).
    set (w1 := updChild (recordExit st) r w).
    assert (forall r', supervised w1 r' -> r' <> r /\ supervised w r') as Hsup.
    { intros r' (Hlt' & Hl & He). unfold w1 in *.
      rewrite length_children_updChild in Hlt'.
      destruct (decide (r' = r)) as [->|Hne].
      - rewrite getChild_updChild_eq in He by done.
        by rewrite exited_recordExit in He.
      - rewrite getChild_updChild_ne in Hl, He by done. done. }
    unfold hasListener. case_bool_decide as Hl.
    + assert (supervised w r) as Hr.
      { repeat split; [done| |congruence].
        unfold w1 in Hl. rewrite getChild_updChild_eq in Hl by done.
        by destruct st. }
      split; [intros r'; by rewrite pythonProcess_exitHandler|].
      intros r' Hr'. exfalso.
      apply (supervised_frame w1) in Hr'; [|apply children_exitHandler].
      destruct (Hsup r' Hr') as [Hne Hr''].
      pose proof (wf_single w Hwf r Hr). pose proof (wf_single w Hwf r' Hr'').
      congruence.
    + split.
      * intros r' Hr'. change (pythonProcess w = Some r') in Hr'.
        destruct (wf_handle w Hwf r' Hr') as [(Hlt' & Hl' & He') Hk'].
        assert (r' <> r) as Hne.
        { intros ->. apply Hl. unfold w1.
          rewrite getChild_updChild_eq by done. by destruct st. }
        unfold supervised, w1. rewrite length_children_updChild.
        by rewrite !getChild_updChild_ne.
      * intros r' Hr'. apply (wf_single w Hwf), Hsup, Hr'.
  - apply wf_stopBackend. by apply (wf_frame w).
  - by apply wf_stopBackend.
  - by apply (wf_frame w).
  - by apply (wf_frame w).
Qed.

Lemma wf_dispatchAll evs w : wf_world w -> wf_world (dispatchAll evs w).
Proof.
  revert w. induction evs as [|ev evs IH]; intros w Hwf; [done|].
  apply IH, wf_dispatch, Hwf.
Qed.

End Invariant.

Section InvariantRuns.

Implicit Types (w : World) (r : nat).

Lemma wf_unwatched c w :
  listeners c = [] -> wf_world w -> wf_world (setChildren (children w ++ [c]) w).
Proof.
  intros Hc Hwf.
  set (w' := setChildren _ w).
  assert (forall r, (r < length (children w))%nat -> getChild w' r = getChild w r)
    as Hold.
  { intros r Hr. rewrite (getChild_new (children w) c w' r eq_refl).
    by rewrite decide_True. }
  split.
  - intros r Hr. change (pythonProcess w = Some r) in Hr.
    destruct (wf_handle w Hwf r Hr) as [(Hlt & Hl & He) Hk].
    unfold supervised. rewrite (Hold r Hlt).
    repeat split; try done. unfold w'. simpl. rewrite length_app. lia.
  - intros r (Hlt & Hl & He). apply (wf_single w Hwf).
    destruct (decide (r < length (children w))%nat) as [Hr|Hr].
    + rewrite (Hold r Hr) in Hl, He. done.
    + exfalso.
      rewrite (getChild_new (children w) c w' r eq_refl) in Hl.
      rewrite decide_False in Hl by done.
      case_decide; [rewrite Hc in Hl | simpl in Hl]; by apply elem_of_nil in Hl.
Qed.

Lemma wf_spawned command w :
  wf_world w -> pythonProcess w = None ->
  wf_world (mkWorld (Some (length (children w))) false (isQuitting w)
              (children w ++ [freshChild command [ExitListener]]) (effects w)).
Proof.
  intros Hwf Hnone.
  set (w' := mkWorld _ _ _ _ _).
  pose proof (getChild_new (children w) (freshChild command [ExitListener]) w')
    as Hget.
  split.
  - intros r [= <-]. unfold supervised.
    rewrite (Hget _ eq_refl), decide_False, decide_True by lia.
    repeat split; [|by apply list_elem_of_singleton].
    unfold w'. simpl. rewrite length_app. simpl. lia.
  - intros r (Hlt & Hl & He).
    destruct (decide (r < length (children w))%nat) as [Hr|Hr].
    + exfalso. rewrite (Hget r eq_refl), decide_True in Hl, He by done.
      assert (pythonProcess w = Some r) by (by apply (wf_single w Hwf)).
      congruence.
    + unfold w' in Hlt. simpl in Hlt. rewrite length_app in Hlt. simpl in Hlt.
      unfold w'. simpl. f_equal. lia.
Qed.

Lemma wf_trySpawnFrom outcome rest index w :
  wf_world w -> pythonProcess w = None ->
  wf_world (snd (trySpawnFrom outcome rest index w)).
Proof.
  revert index w. induction rest as [|cmd rest IH]; intros index w Hwf Hnone; [done|].
  cbn [trySpawnFrom spawn].
  destruct (outcome index cmd) as [|errno e|e].
  - cbn [snd]. rewrite attempt_spawned. by apply wf_spawned.
  - rewrite attempt_failed. destruct (isENOENT e).
    + apply IH; [by apply wf_unwatched | done].
    + by apply wf_unwatched.
  - done.
Qed.

Lemma wf_startBackend sys w : wf_world w -> wf_world (snd (startBackend sys w)).
Proof.
  intros Hwf. unfold startBackend.
  destruct (pythonProcess w) eqn:Hp; [done|].
  destruct (negb _); [done|]. by apply wf_trySpawnFrom.
Qed.

Lemma wf_waitLoop start now tr w res w' t :
  wf_world w -> waitLoop start now tr w = Some (res, w', t) -> wf_world w'.
Proof.
  revert now w. induction tr as [|it tr IH]; intros now w Hwf; cbn [waitLoop].
  - destruct (_ <? _); [discriminate|]. by intros [= _ <- _].
  - destruct (_ <? _); [|by intros [= _ <- _]].
    destruct (pingBackend _).
    + discriminate.
    + intros [= _ <- _]. apply (wf_frame (dispatchAll (duringPing it) w)); try done.
      by apply wf_dispatchAll.
    + destruct (childGone _).
      * intros [= _ <- _]. by apply wf_dispatchAll.
      * apply IH. by do 2 apply wf_dispatchAll.
Qed.

Lemma wf_perform a w : wf_world w -> wf_world (perform a w).
Proof.
  intros Hwf. destruct a as [ev|sys|start tr]; cbn [perform].
  - by apply wf_dispatch.
  - by apply wf_startBackend.
  - unfold waitForBackendReady.
    destruct (waitLoop start start tr w) as [[[res w'] t]|] eqn:Hw; [|done].
    by eapply wf_waitLoop.
Qed.

Lemma wf_run acts w : wf_world w -> wf_world (run acts w).
Proof.
  revert w. induction acts as [|a acts IH]; intros w Hwf; [done|].
  apply IH, wf_perform, Hwf.
Qed.

Lemma reachable_wf w : reachable w -> wf_world w.
Proof. intros [acts ->]. apply wf_run, wf_initial. Qed.

End InvariantRuns.

(** C2. A launch requested while the handle is set resolves at once and
    leaves the whole world as it was: no [spawn] call, no child object, no
    write. On a world the program can reach, the child the handle names is
    then the only supervised child. (Launches do not overlap: the program
    requests one, from [launchApplication].) *)
Theorem startBackend_single_handle (sys : System) (w : World) (r : nat)
    (Hactive : pythonProcess w = Some r) :
  startBackend sys w = (Fulfilled, w) /\
  attempted w (snd (startBackend sys w)) = [] /\
  (reachable w -> forall r', supervised w r' -> r' = r).
Proof.
  assert (startBackend sys w = (Fulfilled, w)) as Hguard
    by (apply startBackend_guard; eauto).
  split; [done|]. split.
  - rewrite Hguard. unfold attempted. cbn [snd]. by rewrite drop_all.
  - intros Hreach r' Hr'.
    pose proof (wf_single w (reachable_wf w Hreach) r' Hr'). congruence.
Qed.

(** C6. [stopBackend] never throws. Without a handle it changes nothing.
    With a handle it leaves the child without listeners, clears the handle
    and the readiness flag, and has called [kill] once unless the child was
    already marked killed, which is never the case on a world the program
    can reach; an exception of [kill] stays inside. A second call right
    after the first changes nothing and does not throw. *)
Theorem stopBackend_idempotent (k k' : KillOutcome) (w : World) :
  fst (stopBackend k w) = Normal tt /\
  (pythonProcess w = None -> snd (stopBackend k w) = w) /\
  (forall r, pythonProcess w = Some r ->
     listeners (getChild (snd (stopBackend k w)) r) = [] /\
     pythonProcess (snd (stopBackend k w)) = None /\
     backendReady (snd (stopBackend k w)) = false /\
     (killed (getChild w r) = false ->
        effects (snd (stopBackend k w)) = effects w ++ [KillRequested r]) /\
     (reachable w -> killed (getChild w r) = false)) /\
  (forall e r, fst (kill (KillThrows e) r w) = Throw e) /\
  stopBackend k' (snd (stopBackend k w)) = (Normal tt, snd (stopBackend k w)).
Proof.
  split; [apply stopBackend_normal|].
  split; [intros H; by rewrite (stopBackend_none k w H)|].
  split; [|split; [done | apply stopBackend_twice]].
  intros r Hr. repeat split.
  - by apply stopBackend_detaches.
  - apply stopBackend_clears.
  - by rewrite (stopBackend_some k w r Hr).
  - by apply stopBackend_effects.
  - intros Hreach. by apply (wf_handle w (reachable_wf w Hreach)).
Qed.

(** ** The readiness wait *)

Section Wait.

Implicit Types (start now : Z) (tr : list Iteration) (w : World).

Lemma waitLoop_expired start now tr w :
  BACKEND_TIMEOUT_MS <= now - start ->
  waitLoop start now tr w = Some (TimedOut, w, now).
Proof.
  intros H. destruct tr; cbn [waitLoop];
    (replace (now - start <? BACKEND_TIMEOUT_MS) with false by lia); done.
Qed.

Lemma waitLoop_turn start now it tr w :
  now - start < BACKEND_TIMEOUT_MS ->
  waitLoop start now (it :: tr) w =
    match pingBackend (requestEvents it) with
    | Pending => None
    | Fulfilled =>
        Some (Ready, setBackendReady true (dispatchAll (duringPing it) w),
              now + pingMs it)
    | Rejected _ =>
        if childGone (dispatchAll (duringPing it) w)
        then Some (ChildExited, dispatchAll (duringPing it) w, now + pingMs it)
        else waitLoop start (now + pingMs it + sleepMs it) tr
               (dispatchAll (duringSleep it) (dispatchAll (duringPing it) w))
    end.
Proof.
  intros H. cbn [waitLoop].
  replace (now - start <? BACKEND_TIMEOUT_MS) with true by lia. done.
Qed.

Lemma childGone_iff w :
  childGone w = true <->
  pythonProcess w = None \/
  exists r, pythonProcess w = Some r /\ exitCode (getChild w r) <> None.
Proof.
  unfold childGone. destruct (pythonProcess w) as [r|].
  - rewrite bool_decide_eq_true. split.
    + intros H. right. eauto.
    + intros [? | (r' & [= <-] & H)]; done.
  - split; [by left | done].
Qed.

(** What a wait that runs undisturbed writes. *)
Lemma waitLoop_frame start now tr w res w' t :
  Forall quiet tr ->
  waitLoop start now tr w = Some (res, w', t) ->
  (res = Ready /\ w' = setBackendReady true w) \/
  ((res = ChildExited \/ res = TimedOut) /\ w' = w).
Proof.
  intros Hq. revert now. induction Hq as [|it tr [Hp Hs] _ IH]; intros now.
  - cbn [waitLoop]. destruct (_ <? _); [discriminate|].
    intros [= <- <- _]. right. auto.
  - destruct (Z.lt_ge_cases (now - start) BACKEND_TIMEOUT_MS) as [Hlt|Hge].
    + rewrite (waitLoop_turn _ _ _ _ _ Hlt), Hp, Hs. cbn [dispatchAll foldl].
      destruct (pingBackend _).
      * discriminate.
      * intros [= <- <- _]. left. auto.
      * destruct (childGone w).
        -- intros [= <- <- _]. right. auto.
        -- apply IH.
    + rewrite (waitLoop_expired _ _ _ _ Hge).
      intros [= <- <- _]. right. auto.
Qed.

Lemma waitLoop_times_out start cycle tr : forall now w,
  childGone w = false ->
  Forall (idleTurn cycle) tr ->
  now - start < BACKEND_TIMEOUT_MS + cycle ->
  BACKEND_TIMEOUT_MS - (now - start)
    <= BACKEND_CHECK_INTERVAL_MS * Z.of_nat (length tr) ->
  exists t,
    waitLoop start now tr w = Some (TimedOut, w, t) /\
    BACKEND_TIMEOUT_MS <= t - start < BACKEND_TIMEOUT_MS + cycle.
Proof.
  induction tr as [|it tr IH]; intros now w Halive Hidle Hnow Hlen.
  - exists now. rewrite waitLoop_expired; [split; [done|] |];
      simpl in Hlen; lia.
  - destruct (Z.lt_ge_cases (now - start) BACKEND_TIMEOUT_MS) as [Hlt|Hge].
    + apply Forall_cons in Hidle
        as [((reason & Hping) & (Hp & Hs) & Hp0 & Hs0 & Hcyc) Hidle].
      rewrite (waitLoop_turn _ _ _ _ _ Hlt), Hping, Hp, Hs.
      cbn [dispatchAll foldl]. rewrite Halive.
      apply IH; try done; [lia|].
      rewrite length_cons, Nat2Z.inj_succ in Hlen.
      unfold BACKEND_CHECK_INTERVAL_MS in *. lia.
    + exists now. rewrite waitLoop_expired by done. split; [done|lia].
Qed.

(** The wait settles as soon as the environment answers every probe and
    lets as many turns pass as poll intervals fit in the timeout. *)
Lemma waitLoop_settles start tr : forall now w,
  Forall (fun it => requestEvents it <> [] /\ 0 <= pingMs it /\
                    BACKEND_CHECK_INTERVAL_MS <= sleepMs it) tr ->
  BACKEND_TIMEOUT_MS - (now - start)
    <= BACKEND_CHECK_INTERVAL_MS * Z.of_nat (length tr) ->
  is_Some (waitLoop start now tr w).
Proof.
  induction tr as [|it tr IH]; intros now w Hans Hlen.
  - rewrite waitLoop_expired; [done|]. simpl in Hlen. lia.
  - destruct (Z.lt_ge_cases (now - start) BACKEND_TIMEOUT_MS) as [Hlt|Hge].
    + apply Forall_cons in Hans as [(Hev & Hp0 & Hs0) Hans].
      rewrite (waitLoop_turn _ _ _ _ _ Hlt).
      destruct (requestEvents it) as [|ev evs] eqn:Hreq; [done|].
      destruct (pingBackend_ready_or_rejected ev evs)
        as [-> | [reason ->]]; [done|].
      destruct (childGone _); [done|].
      apply IH; [done|].
      rewrite length_cons, Nat2Z.inj_succ in Hlen.
      unfold BACKEND_CHECK_INTERVAL_MS in *. lia.
    + by rewrite waitLoop_expired.
Qed.

End Wait.

(** C3. At any test of the loop condition that lets the loop run, if the
    probe of that turn fails and, once the handlers that ran during the
    probe are done, the handle is cleared or the exit code of its child is
    set, then the wait ends with the child-exited error at the very time
    the probe failed: no timer is awaited and the rest of the timeout is
    not waited for, whatever the environment would have done next. *)
Theorem waitLoop_child_exited (start now : Z) (it : Iteration)
    (tr : list Iteration) (w : World) (reason : Thrown)
    (Hrun : now - start < BACKEND_TIMEOUT_MS)
    (Hfail : pingBackend (requestEvents it) = Rejected reason)
    (Hgone : pythonProcess (dispatchAll (duringPing it) w) = None \/
             exists r, pythonProcess (dispatchAll (duringPing it) w) = Some r /\
                       exitCode (getChild (dispatchAll (duringPing it) w) r) <> None) :
  waitLoop start now (it :: tr) w =
    Some (ChildExited, dispatchAll (duringPing it) w, now + pingMs it).
Proof.
  rewrite (waitLoop_turn _ _ _ _ _ Hrun), Hfail.
  apply childGone_iff in Hgone. by rewrite Hgone.
Qed.

(** C4 (amended). A wait during which no handler runs leaves the handle,
    the child objects, the quitting flag and the log of effects as they
    were. When it ends with the timeout or the child-exited error the whole
    world is unchanged; when it ends ready, the readiness flag has been set
    and nothing else has changed. *)
Theorem waitForBackendReady_frame (start : Z) (tr : list Iteration) (w : World)
    (res : Promise) (w' : World) (t : Z)
    (Hquiet : Forall quiet tr)
    (Hres : waitForBackendReady start tr w = Some (res, w', t)) :
  (res = Ready /\ w' = setBackendReady true w) \/
  ((res = ChildExited \/ res = TimedOut) /\ w' = w).
Proof. by eapply waitLoop_frame. Qed.

(** C5 (amended). While every probe fails, no handler runs and the child
    stays alive, a wait that is given enough turns (as many as poll
    intervals fit in the timeout) ends with the timeout error, with the
    world unchanged, not before the timeout has elapsed and less than one
    turn of the loop (one probe and one timer, at most [cycle]) after it. *)
Theorem waitForBackendReady_times_out (start cycle : Z) (tr : list Iteration)
    (w : World)
    (Halive : childGone w = false)
    (Hidle : Forall (idleTurn cycle) tr)
    (Hturns : BACKEND_TIMEOUT_MS <= BACKEND_CHECK_INTERVAL_MS * Z.of_nat (length tr)) :
  exists t,
    waitForBackendReady start tr w = Some (TimedOut, w, t) /\
    BACKEND_TIMEOUT_MS <= t - start < BACKEND_TIMEOUT_MS + cycle.
Proof.
  unfold waitForBackendReady.
  destruct tr as [|it tr'] eqn:Htr.
  { simpl in Hturns. unfold BACKEND_TIMEOUT_MS, BACKEND_CHECK_INTERVAL_MS in Hturns. lia. }
  rewrite <- Htr in *. apply waitLoop_times_out; try done.
  - rewrite Htr in Hidle. apply Forall_cons in Hidle as [(_ & _ & ? & ? & ?) _].
    unfold BACKEND_TIMEOUT_MS, BACKEND_CHECK_INTERVAL_MS in *. lia.
  - lia.
Qed.

(** ** Exits after a stop or during shutdown *)

Section ExpectedExit.

Implicit Types (k : KillOutcome) (w : World) (r : nat).

Lemma isQuitting_stopBackend k w :
  isQuitting (snd (stopBackend k w)) = isQuitting w.
Proof.
  destruct (pythonProcess w) as [r|] eqn:Hr.
  - rewrite (stopBackend_some k w r Hr).
    destruct (killed _); [|destruct k]; reflexivity.
  - by rewrite (stopBackend_none k w Hr).
Qed.

Lemma isQuitting_exitHandler st w :
  isQuitting (exitHandler st w) = isQuitting w.
Proof. unfold exitHandler. by destruct (negb _). Qed.

Lemma isQuitting_dispatch ev w :
  isQuitting w = true -> isQuitting (dispatch ev w) = true.
Proof.
  intros Hq. destruct ev as [r st|k|k| |]; cbn [dispatch]; try done.
  - destruct (children w !! r); [|done]. destruct (exited _); [done|].
    destruct (hasListener _ _ _); [by rewrite isQuitting_exitHandler | done].
  - by rewrite isQuitting_stopBackend.
  - by rewrite isQuitting_stopBackend.
Qed.

Lemma isQuitting_dispatchAll evs w :
  isQuitting w = true -> isQuitting (dispatchAll evs w) = true.
Proof.
  revert w. induction evs as [|ev evs IH]; intros w Hq; [done|].
  apply IH, isQuitting_dispatch, Hq.
Qed.

Lemma isQuitting_trySpawnFrom outcome rest index w :
  isQuitting (snd (trySpawnFrom outcome rest index w)) = isQuitting w.
Proof.
  revert index w. induction rest as [|cmd rest IH]; intros index w; [done|].
  cbn [trySpawnFrom spawn]. destruct (outcome index cmd) as [|errno e|e].
  - cbn [snd]. by rewrite attempt_spawned.
  - rewrite attempt_failed. destruct (isENOENT e); [by rewrite IH | done].
  - done.
Qed.

Lemma isQuitting_waitLoop start now tr w res w' t :
  isQuitting w = true -> waitLoop start now tr w = Some (res, w', t) ->
  isQuitting w' = true.
Proof.
  revert now w. induction tr as [|it tr IH]; intros now w Hq; cbn [waitLoop].
  - destruct (_ <? _); [discriminate|]. by intros [= _ <- _].
  - destruct (_ <? _); [|by intros [= _ <- _]].
    destruct (pingBackend _).
    + discriminate.
    + intros [= _ <- _]. by apply (isQuitting_dispatchAll (duringPing it) w).
    + destruct (childGone _).
      * intros [= _ <- _]. by apply isQuitting_dispatchAll.
      * apply IH. by do 2 apply isQuitting_dispatchAll.
Qed.

Lemma isQuitting_run acts w :
  isQuitting w = true -> isQuitting (run acts w) = true.
Proof.
  revert w. induction acts as [|a acts IH]; intros w Hq; [done|].
  apply IH. destruct a as [ev|sys|start tr]; cbn [perform].
  - by apply isQuitting_dispatch.
  - unfold startBackend. destruct (pythonProcess w); [done|].
    destruct (negb _); [done|]. unfold trySpawn.
    by rewrite isQuitting_trySpawnFrom.
  - unfold waitForBackendReady.
    destruct (waitLoop start start tr w) as [[[res w'] t]|] eqn:Hw; [|done].
    by eapply isQuitting_waitLoop.
Qed.

Lemma unwatched_frame r w w' :
  children w' = children w -> unwatched r w -> unwatched r w'.
Proof. intros H. unfold unwatched, getChild. by rewrite H. Qed.

Lemma unwatched_stopBackend k w r :
  unwatched r w -> unwatched r (snd (stopBackend k w)).
Proof.
  intros [Hlt Hl]. destruct (pythonProcess w) as [r0|] eqn:Hr.
  - destruct (stopBackend_children k w r0 Hr) as [Hlen Hothers].
    split; [by rewrite Hlen|].
    destruct (decide (r = r0)) as [->|Hne].
    + rewrite (stopBackend_detaches k w r0 Hr). apply not_elem_of_nil.
    + by rewrite (Hothers r Hne).
  - by rewrite (stopBackend_none k w Hr).
Qed.

Lemma unwatched_stopped k w r :
  pythonProcess w = Some r -> (r < length (children w))%nat ->
  unwatched r (snd (stopBackend k w)).
Proof.
  intros Hr Hlt. destruct (stopBackend_children k w r Hr) as [Hlen _].
  split; [by rewrite Hlen|].
  rewrite (stopBackend_detaches k w r Hr). apply not_elem_of_nil.
Qed.

Lemma listeners_recordExit st c : listeners (recordExit st c) = listeners c.
Proof. by destruct st. Qed.

Lemma unwatched_recordExit st r r' w :
  unwatched r w -> unwatched r (updChild (recordExit st) r' w).
Proof.
  intros [Hlt Hl]. split; [by rewrite length_children_updChild|].
  rewrite getChild_updChild. case_decide; [|done].
  by rewrite listeners_recordExit.
Qed.

Lemma unwatched_dispatch ev w r : unwatched r w -> unwatched r (dispatch ev w).
Proof.
  intros Hu. destruct ev as [r' st|k|k| |]; cbn [dispatch].
  - destruct (children w !! r'); [|done]. destruct (exited _); [done|].
    destruct (hasListener _ _ _).
    + apply (unwatched_frame r (updChild (recordExit st) r' w));
        [apply children_exitHandler | by apply unwatched_recordExit].
    + by apply unwatched_recordExit.
  - apply unwatched_stopBackend. by apply (unwatched_frame r w).
  - by apply unwatched_stopBackend.
  - by apply (unwatched_frame r w).
  - by apply (unwatched_frame r w).
Qed.

Lemma unwatched_dispatchAll evs w r :
  unwatched r w -> unwatched r (dispatchAll evs w).
Proof.
  revert w. induction evs as [|ev evs IH]; intros w Hu; [done|].
  apply IH, unwatched_dispatch, Hu.
Qed.

Lemma unwatched_new r w w' c :
  children w' = children w ++ [c] -> unwatched r w -> unwatched r w'.
Proof.
  intros Hc [Hlt Hl]. split.
  - rewrite Hc, length_app. lia.
  - rewrite (getChild_new (children w) c w' r Hc), decide_True by done. done.
Qed.

Lemma unwatched_trySpawnFrom outcome rest index w r :
  unwatched r w -> unwatched r (snd (trySpawnFrom outcome rest index w)).
Proof.
  revert index w. induction rest as [|cmd rest IH]; intros index w Hu; [done|].
  cbn [trySpawnFrom spawn]. destruct (outcome index cmd) as [|errno e|e].
  - cbn [snd]. rewrite attempt_spawned.
    by apply (unwatched_new r w _ (freshChild cmd [ExitListener])).
  - rewrite attempt_failed.
    assert (unwatched r (setChildren (children w ++ [failedChild cmd errno]) w))
      by (by apply (unwatched_new r w _ (failedChild cmd errno))).
    destruct (isENOENT e); [by apply IH | done].
  - done.
Qed.

Lemma unwatched_waitLoop start now tr w res w' t r :
  unwatched r w -> waitLoop start now tr w = Some (res, w', t) ->
  unwatched r w'.
Proof.
  revert now w. induction tr as [|it tr IH]; intros now w Hu; cbn [waitLoop].
  - destruct (_ <? _); [discriminate|]. by intros [= _ <- _].
  - destruct (_ <? _); [|by intros [= _ <- _]].
    destruct (pingBackend _).
    + discriminate.
    + intros [= _ <- _].
      apply (unwatched_frame r (dispatchAll (duringPing it) w)); [done|].
      by apply unwatched_dispatchAll.
    + destruct (childGone _).
      * intros [= _ <- _]. by apply unwatched_dispatchAll.
      * apply IH. by do 2 apply unwatched_dispatchAll.
Qed.

Lemma unwatched_run acts w r : unwatched r w -> unwatched r (run acts w).
Proof.
  revert w. induction acts as [|a acts IH]; intros w Hu; [done|].
  apply IH. destruct a as [ev|sys|start tr]; cbn [perform].
  - by apply unwatched_dispatch.
  - unfold startBackend. destruct (pythonProcess w); [done|].
    destruct (negb _); [done|]. by apply unwatched_trySpawnFrom.
  - unfold waitForBackendReady.
    destruct (waitLoop start start tr w) as [[[res w'] t]|] eqn:Hw; [|done].
    by eapply unwatched_waitLoop.
Qed.

Lemma exit_unwatched_silent r st w :
  unwatched r w -> effects (dispatch (ChildExit r st) w) = effects w.
Proof.
  intros [Hlt Hl]. cbn [dispatch].
  destruct (children w !! r) as [c|] eqn:Hc; [|done].
  destruct (exited c); [done|].
  unfold hasListener. rewrite bool_decide_eq_false_2; [done|].
  rewrite getChild_updChild_eq, listeners_recordExit by done. done.
Qed.

Lemma exit_quitting_silent r st w :
  isQuitting w = true -> effects (dispatch (ChildExit r st) w) = effects w.
Proof.
  intros Hq. cbn [dispatch].
  destruct (children w !! r) as [c|]; [|done].
  destruct (exited c); [done|].
  destruct (hasListener _ _ _); [|done].
  unfold exitHandler. cbn [isQuitting setBackendReady setPythonProcess updChild setChildren].
  by rewrite Hq.
Qed.

End ExpectedExit.

(** C7. After [stopBackend] has run on a handle, the handle is cleared and,
    whatever the program does from then on, the exit of that child adds
    nothing to the log of effects: neither the crash dialog nor a quit
    request. Once the before-quit handler has run, the same holds for the
    exit of any child. *)
Theorem expected_exit_is_silent (k : KillOutcome) (w : World) (r : nat)
    (Hhandle : pythonProcess w = Some r)
    (Hchild : (r < length (children w))%nat) :
  pythonProcess (snd (stopBackend k w)) = None /\
  (forall acts st,
     effects (dispatch (ChildExit r st) (run acts (snd (stopBackend k w)))) =
     effects (run acts (snd (stopBackend k w)))) /\
  (forall acts r' st,
     effects (dispatch (ChildExit r' st) (run acts (dispatch (BeforeQuit k) w))) =
     effects (run acts (dispatch (BeforeQuit k) w))).
Proof.
  split; [apply stopBackend_clears|]. split.
  - intros acts st. apply exit_unwatched_silent, unwatched_run.
    by apply unwatched_stopped.
  - intros acts r' st. apply exit_quitting_silent, isQuitting_run.
    cbn [dispatch]. by rewrite isQuitting_stopBackend.
Qed.

(* ================================================================== *)
(** * The statements on sample environments *)

Module Scenario.
Import Sample.

Example liveWorld_eq :
  liveWorld =
    mkWorld (Some 0%nat) false false
      [freshChild (lit "python3") [ExitListener]] [].
Proof. reflexivity. Qed.

Example liveWorld_reachable : reachable liveWorld.
Proof. exists [DoStartBackend sysOk]. reflexivity. Qed.

(** A permission error on the first candidate ends the launch. *)
Example launch_denied :
  candidateCommands (envPYTHON sysDenied) (platform sysDenied) =
    [lit "/opt/py/python"; lit "python3"; lit "python"] /\
  fst (startBackend sysDenied initialWorld) = Rejected eacces /\
  attempted initialWorld (snd (startBackend sysDenied initialWorld)) =
    [lit "/opt/py/python"] /\
  pythonProcess (snd (startBackend sysDenied initialWorld)) = None.
Proof. repeat split. Qed.

Example launch_second :
  fst (startBackend sysSecond initialWorld) = Fulfilled /\
  attempted initialWorld (snd (startBackend sysSecond initialWorld)) =
    [lit "python3"; lit "python"] /\
  pythonProcess (snd (startBackend sysSecond initialWorld)) = Some 1%nat.
Proof. repeat split. Qed.

Example launch_none :
  fst (startBackend sysNone initialWorld) = Rejected NoInterpreterFound /\
  attempted initialWorld (snd (startBackend sysNone initialWorld)) =
    [lit "python"; lit "python3"].
Proof. repeat split. Qed.

(** The exit of the watched child, outside a shutdown, raises the dialog. *)
Example crash_dialog :
  dispatch (ChildExit 0 (ExitedWith 1)) liveWorld =
    mkWorld None false false
      [mkChild (lit "python3") (Some 1) None false [ExitListener]]
      [ShowErrorBox (BackendCrashed (ByCode 1)); AppQuit].
Proof. reflexivity. Qed.

Example stop_then_exit_silent :
  effects (dispatch (ChildExit 0 (ExitedWith 143))
             (snd (stopBackend KillDelivered liveWorld))) =
    [KillRequested 0].
Proof. reflexivity. Qed.

Example trySpawn_fallback_cases :
  (fst (trySpawn (spawnOutcome sysDenied)
          [lit "/opt/py/python"; lit "python3"; lit "python"] 0 initialWorld)
   = Rejected eacces /\
   attempted initialWorld
     (snd (trySpawn (spawnOutcome sysDenied)
             [lit "/opt/py/python"; lit "python3"; lit "python"] 0 initialWorld))
   = [lit "/opt/py/python"]) /\
  (fst (trySpawn (spawnOutcome sysNone) [lit "python"; lit "python3"] 0 initialWorld)
   = Rejected NoInterpreterFound /\
   attempted initialWorld
     (snd (trySpawn (spawnOutcome sysNone) [lit "python"; lit "python3"] 0 initialWorld))
   = [lit "python"; lit "python3"]).
Proof.
  split.
  - apply (proj1 (proj2 (trySpawn_fallback (spawnOutcome sysDenied)
             [lit "/opt/py/python"; lit "python3"; lit "python"] initialWorld))
             0%nat (lit "/opt/py/python") (-13) eacces).
    + reflexivity.
    + intros j Hj. lia.
    + reflexivity.
    + reflexivity.
  - apply (proj2 (proj2 (trySpawn_fallback (spawnOutcome sysNone)
             [lit "python"; lit "python3"] initialWorld))).
    intros [|[|j]] Hj.
    + exists (lit "python"), enoent. repeat split. by exists (-4058).
    + exists (lit "python3"), enoent. repeat split. by exists (-4058).
    + simpl in Hj. lia.
Qed.

(** C1. The claim has every spawn-time error other than not-found reject
    the launch at once with that error. On Linux without PYTHON the
    candidates are python3 and python. When python3 is reported as not
    found and [spawn] then throws on python (ELOOP), the call is made from
    [handleError]: the exception is caught by nobody, [reject] is never
    called and the launch stays pending, with the child object of python3
    as the only trace. The same error reported through the ['error'] event
    at that candidate rejects the launch, and so does the same exception
    thrown at the first candidate, inside the executor of the promise. *)
Theorem spawn_throw_leaves_launch_pending :
  candidateCommands (envPYTHON SampleThrow.sysLoop) (platform SampleThrow.sysLoop)
    = [lit "python3"; lit "python"] /\
  spawnOutcome SampleThrow.sysLoop 0 (lit "python3") = SpawnFails (-2) enoent /\
  spawnOutcome SampleThrow.sysLoop 1 (lit "python")
    = SpawnThrows SampleThrow.eloop /\
  isENOENT SampleThrow.eloop = false /\
  startBackend SampleThrow.sysLoop initialWorld =
    (Pending, setChildren [failedChild (lit "python3") (-2)] initialWorld) /\
  startBackend SampleThrow.sysDeniedSecond initialWorld =
    (Rejected eacces,
     setChildren [failedChild (lit "python3") (-2);
                  failedChild (lit "python") (-13)] initialWorld) /\
  startBackend SampleThrow.sysLoopFirst initialWorld =
    (Rejected SampleThrow.eloop, initialWorld).
Proof. repeat split. Qed.

Lemma stopBackend_idempotent_witness :
  fst (stopBackend (KillThrows eacces) liveWorld) = Normal tt /\
  effects (snd (stopBackend (KillThrows eacces) liveWorld)) = [KillRequested 0] /\
  stopBackend KillDelivered (snd (stopBackend (KillThrows eacces) liveWorld)) =
    (Normal tt, snd (stopBackend (KillThrows eacces) liveWorld)) /\
  snd (stopBackend KillDelivered initialWorld) = initialWorld.
Proof.
  pose proof (stopBackend_idempotent (KillThrows eacces) KillDelivered liveWorld)
    as (Hnormal & _ & Hhandle & _ & Htwice).
  destruct (Hhandle 0%nat eq_refl) as (_ & _ & _ & Heffects & _).
  split; [exact Hnormal|]. split; [exact (Heffects eq_refl)|].
  split; [exact Htwice|].
  exact (proj1 (proj2 (stopBackend_idempotent KillDelivered KillDelivered initialWorld))
           eq_refl).
Defined.

Lemma candidateCommands_override_witness :
  candidateCommands (Some (lit "  /opt/py/python ")) (lit "linux") =
    [lit "/opt/py/python"; lit "python3"; lit "python"] /\
  candidateCommands (Some [0x20; 0x09; 0x3000]%N) (lit "win32") =
    [lit "python"; lit "python3"].
Proof.
  split.
  - apply (proj1 (proj2 (candidateCommands_override
                           (lit "  /opt/py/python ") (lit "linux")))).
    vm_compute. discriminate.
  - transitivity (candidateCommands None (lit "win32")); [|reflexivity].
    apply (proj1 (proj2 (proj2 (candidateCommands_override
                                  [0x20; 0x09; 0x3000]%N (lit "win32"))))).
    repeat constructor.
Defined.

Lemma startBackend_single_handle_witness :
  pythonProcess liveWorld = Some 0%nat /\
  (startBackend sysNone liveWorld = (Fulfilled, liveWorld) /\
   attempted liveWorld (snd (startBackend sysNone liveWorld)) = [] /\
   (reachable liveWorld -> forall r', supervised liveWorld r' -> r' = 0%nat)).
Proof.
  split; [reflexivity|].
  apply (startBackend_single_handle sysNone liveWorld 0). reflexivity.
Defined.

Lemma waitLoop_child_exited_witness :
  waitLoop 0 0 [crashTurn] liveWorld =
    Some (ChildExited, dispatchAll (duringPing crashTurn) liveWorld, 0 + pingMs crashTurn).
Proof.
  apply (waitLoop_child_exited 0 0 crashTurn [] liveWorld econnrefused).
  - reflexivity.
  - reflexivity.
  - left. reflexivity.
Defined.

(** C4, as stated, has the wait leave every variable as it found it. A
    wait that finds the backend ready sets the readiness flag. *)
Lemma ready_wait_sets_flag :
  ~ (forall start tr w res w' t,
       Forall quiet tr ->
       waitForBackendReady start tr w = Some (res, w', t) ->
       w' = w).
Proof.
  intros H.
  specialize (H 0 [readyTurn] liveWorld Ready (setBackendReady true liveWorld) 12).
  assert (setBackendReady true liveWorld = liveWorld) as Heq.
  { apply H; [|reflexivity]. repeat constructor. }
  apply (f_equal backendReady) in Heq. discriminate Heq.
Qed.

Lemma waitForBackendReady_frame_witness :
  (Ready = Ready /\ setBackendReady true liveWorld = setBackendReady true liveWorld) \/
  ((Ready = ChildExited \/ Ready = TimedOut) /\
   setBackendReady true liveWorld = liveWorld).
Proof.
  apply (waitForBackendReady_frame 0 [readyTurn] liveWorld Ready
           (setBackendReady true liveWorld) 12).
  - repeat constructor.
  - reflexivity.
Defined.

Lemma slowTurn_idle :
  idleTurn (PING_REQUEST_TIMEOUT_MS + BACKEND_CHECK_INTERVAL_MS) slowTurn.
Proof.
  split; [by exists econnrefused|]. split; [by split|].
  unfold PING_REQUEST_TIMEOUT_MS, BACKEND_CHECK_INTERVAL_MS. simpl. lia.
Qed.

(** C5, as stated, has the wait end no later than one poll interval after
    the timeout. With probes refused after 2999 ms and timers of exactly one
    poll interval, the 46th turn starts 45 ms before the timeout and the
    wait ends 3954 ms after it. *)
Lemma timeout_overshoots_poll_interval :
  ~ (forall start tr w res w' t,
       childGone w = false ->
       Forall (fun it =>
                 idleTurn (PING_REQUEST_TIMEOUT_MS + BACKEND_CHECK_INTERVAL_MS) it /\
                 pingMs it <= PING_REQUEST_TIMEOUT_MS /\
                 sleepMs it = BACKEND_CHECK_INTERVAL_MS) tr ->
       waitForBackendReady start tr w = Some (res, w', t) ->
       res = TimedOut /\
       BACKEND_TIMEOUT_MS <= t - start <= BACKEND_TIMEOUT_MS + BACKEND_CHECK_INTERVAL_MS).
Proof.
  intros H.
  destruct (H 0 (replicate 46 slowTurn) liveWorld TimedOut liveWorld 183954)
    as [_ [_ Hlate]].
  - reflexivity.
  - apply Forall_replicate. split; [apply slowTurn_idle|]. split; [|reflexivity].
    unfold PING_REQUEST_TIMEOUT_MS. simpl. lia.
  - vm_compute. reflexivity.
  - unfold BACKEND_TIMEOUT_MS, BACKEND_CHECK_INTERVAL_MS in Hlate. lia.
Qed.

Lemma waitForBackendReady_times_out_witness :
  exists t,
    waitForBackendReady 0 (replicate 180 timeoutTurn) liveWorld
      = Some (TimedOut, liveWorld, t) /\
    BACKEND_TIMEOUT_MS <= t - 0 <
      BACKEND_TIMEOUT_MS + (PING_REQUEST_TIMEOUT_MS + BACKEND_CHECK_INTERVAL_MS).
Proof.
  apply (waitForBackendReady_times_out 0
           (PING_REQUEST_TIMEOUT_MS + BACKEND_CHECK_INTERVAL_MS)
           (replicate 180 timeoutTurn) liveWorld).
  - reflexivity.
  - apply Forall_replicate. split; [eexists; reflexivity|]. split; [by split|].
    vm_compute. repeat split; discriminate.
  - vm_compute. discriminate.
Defined.

Lemma expected_exit_is_silent_witness :
  pythonProcess (snd (stopBackend KillDelivered liveWorld)) = None /\
  (forall acts st,
     effects (dispatch (ChildExit 0 st)
                (run acts (snd (stopBackend KillDelivered liveWorld)))) =
     effects (run acts (snd (stopBackend KillDelivered liveWorld)))) /\
  (forall acts r' st,
     effects (dispatch (ChildExit r' st)
                (run acts (dispatch (BeforeQuit KillDelivered) liveWorld))) =
     effects (run acts (dispatch (BeforeQuit KillDelivered) liveWorld))).
Proof.
  apply (expected_exit_is_silent KillDelivered liveWorld 0).
  - reflexivity.
  - vm_compute. constructor.
Defined.

End Scenario.

(* ================================================================== *)
(** * Further properties of the launcher *)


(** X1. When the candidates before the [m]-th all fail with a not-found
    error and the [m]-th spawns, the launch resolves; the handle is the
    child created for the [m]-th candidate and that child carries the exit
    listener and no other; each earlier candidate has left a child object
    without listeners whose exit code is the error number the runtime
    recorded for it; the readiness flag is reset; [spawn] was called on the
    first [m + 1] candidates and on no other; nothing else has changed. *)
Theorem trySpawn_first_success (outcome : nat -> jsstring -> SpawnOutcome)
    (cmds : list jsstring) (w : World) (m : nat) (cmd : jsstring)
    (Hcmd : cmds !! m = Some cmd)
    (Hbefore : forall j, (j < m)%nat -> notFoundAt outcome cmds j)
    (Hok : outcome m cmd = SpawnOk) :
  trySpawn outcome cmds 0 w =
    (Fulfilled,
     mkWorld (Some (length (children w) + m)%nat) false (isQuitting w)
       (children w ++ notFoundChildren outcome 0 cmds
          ++ [freshChild cmd [ExitListener]])
       (effects w)) /\
  length (notFoundChildren outcome 0 cmds) = m /\
  (forall j c errno e,
     (j < m)%nat -> cmds !! j = Some c -> outcome j c = SpawnFails errno e ->
     notFoundChildren outcome 0 cmds !! j = Some (failedChild c errno)) /\
  attempted w (snd (trySpawn outcome cmds 0 w)) = take (S m) cmds.
Proof.
  assert (length (notFoundChildren outcome 0 cmds) = m) as Hlen.
  { apply notFoundChildren_length; [done|]. right. exists cmd.
    split; [done|]. intros errno' e' Hout'. congruence. }
  split; [|split; [done|split]].
  - unfold trySpawn. rewrite drop_0, trySpawnFrom_closed. cbn [Nat.add].
    by rewrite Hlen, Hcmd, Hok.
  - intros j c errno e Hj Hc Hout. rewrite <- Hlen in Hj.
    destruct (notFoundChildren_before outcome cmds 0 j Hj)
      as (c' & errno' & e' & Hc' & Hout' & _ & Hnf).
    cbn [Nat.add] in Hout'. congruence.
  - rewrite trySpawn_attempted. by rewrite Hlen, Hcmd, Hok.
Qed.

(** X2. A launch, whatever its outcome, adds nothing to the log of
    effects, leaves the quitting flag alone and leaves every child object
    that existed before exactly as it was: the store only grows at its
    end. *)
Theorem startBackend_frame (sys : System) (w : World) :
  effects (snd (startBackend sys w)) = effects w /\
  isQuitting (snd (startBackend sys w)) = isQuitting w /\
  exists new, children (snd (startBackend sys w)) = children w ++ new.
Proof.
  unfold startBackend. destruct (pythonProcess w).
  { repeat split. exists []. by rewrite app_nil_r. }
  destruct (negb _).
  { repeat split. exists []. by rewrite app_nil_r. }
  unfold trySpawn.
  destruct (trySpawnFrom_shape (spawnOutcome sys)
              (drop 0 (candidateCommands (envPYTHON sys) (platform sys))) 0 w)
    as (p & h & b & new & ->).
  repeat split. by exists new.
Qed.

(** X3. The promise of a launch is fulfilled exactly when the handle is
    set afterwards. When it is not fulfilled (it is rejected, or left
    pending) there was no handle and there is none afterwards, the
    readiness flag is unchanged, and no child object created by the launch
    has a listener left. It is left pending only when there was no handle,
    the entry script exists and [spawn] throws at a candidate after the
    first. *)
Theorem startBackend_outcome (sys : System) (w : World) :
  ((fst (startBackend sys w) = Fulfilled /\
    is_Some (pythonProcess (snd (startBackend sys w)))) \/
   ((fst (startBackend sys w) = Pending \/
     exists e, fst (startBackend sys w) = Rejected e) /\
    pythonProcess w = None /\
    pythonProcess (snd (startBackend sys w)) = None /\
    backendReady (snd (startBackend sys w)) = backendReady w /\
    forall r, (length (children w) <= r)%nat ->
      listeners (getChild (snd (startBackend sys w)) r) = [])) /\
  (fst (startBackend sys w) = Pending ->
   pythonProcess w = None /\ scriptExists sys = true /\
   exists i cmd e,
     candidateCommands (envPYTHON sys) (platform sys) !! S i = Some cmd /\
     spawnOutcome sys (S i) cmd = SpawnThrows e).
Proof.
  unfold startBackend. destruct (pythonProcess w) as [r0|] eqn:Hp.
  { split; [|discriminate]. left. split; [done|]. cbn [snd]. rewrite Hp. eauto. }
  destruct (scriptExists sys) eqn:Hscript; cbn [negb].
  2:{ split; [|discriminate]. right. split; [right; by eexists|].
      repeat split; try done.
      intros r Hr. unfold getChild. cbn [snd].
      by rewrite (proj2 (lookup_ge_None _ _) Hr). }
  unfold trySpawn. rewrite drop_0, trySpawnFrom_closed. cbn [Nat.add].
  set (cmds := candidateCommands (envPYTHON sys) (platform sys)).
  set (nf := notFoundChildren (spawnOutcome sys) 0 cmds).
  assert (forall tail r, Forall (fun c => listeners c = []) tail ->
            (length (children w) <= r)%nat ->
            listeners (getChild (setChildren (children w ++ tail) w) r) = [])
    as Hquiet.
  { intros tail r Htail Hr. unfold getChild. cbn [children setChildren].
    rewrite lookup_app_r by done.
    destruct (tail !! _) as [c|] eqn:Hc; [|done]. cbn.
    by apply (Forall_lookup_1 _ _ _ _ Htail Hc). }
  pose proof (notFoundChildren_listeners (spawnOutcome sys) cmds 0) as Hnf.
  fold nf in Hnf.
  destruct (cmds !! length nf) as [cmd|] eqn:Hcmd.
  - destruct (spawnOutcome sys (length nf) cmd) as [|errno e|e] eqn:Hout.
    + split; [|discriminate]. left. split; [done|]. cbn. eauto.
    + split; [|discriminate]. right. split; [right; by eexists|].
      repeat split; try done. intros r Hr. apply Hquiet; [|done].
      apply Forall_app. split; [done|]. by constructor.
    + split.
      * right. split; [destruct (length nf); [right; by eexists | by left]|].
        repeat split; try done. intros r Hr. by apply Hquiet.
      * destruct (length nf) as [|i] eqn:Hi; [discriminate|]. intros _.
        repeat split; try done. by exists i, cmd, e.
  - split; [|discriminate]. right. split; [right; by eexists|].
    repeat split; try done. intros r Hr. by apply Hquiet.
Qed.

(** X4. There are two or three candidates, never none; the last two are
    the names python and python3 in the order of the platform, so both are
    always tried before the launch gives up; and no candidate is empty or
    begins or ends with white space. *)
Theorem candidateCommands_shape (envPYTHON : option jsstring) (platform : jsstring) :
  (length (candidateCommands envPYTHON platform) = 2%nat \/
   length (candidateCommands envPYTHON platform) = 3%nat) /\
  drop (length (candidateCommands envPYTHON platform) - 2)
       (candidateCommands envPYTHON platform) = defaultCommands platform /\
  lit "python" ∈ candidateCommands envPYTHON platform /\
  lit "python3" ∈ candidateCommands envPYTHON platform /\
  Forall (fun c => c <> [] /\ startsClean c /\ endsClean c)
         (candidateCommands envPYTHON platform).
Proof.
  assert (length (defaultCommands platform) = 2%nat /\
          lit "python" ∈ defaultCommands platform /\
          lit "python3" ∈ defaultCommands platform /\
          Forall (fun c => c <> [] /\ startsClean c /\ endsClean c)
                 (defaultCommands platform)) as (Hlen & Hpy & Hpy3 & Hclean).
  { assert (forall s, s = lit "python" \/ s = lit "python3" ->
              s <> [] /\ startsClean s /\ endsClean s) as Hname.
    { intros s [-> | ->]; (split; [discriminate|]);
        split; intros c [= <-]; reflexivity. }
    unfold defaultCommands. case_bool_decide; repeat split;
      try (apply list_elem_of_here); try (apply list_elem_of_further, list_elem_of_here);
      repeat constructor; try discriminate; try (intros c [= <-]; reflexivity). }
  unfold candidateCommands.
  assert (overrideCommands envPYTHON = [] \/
          exists v, overrideCommands envPYTHON = [trim v] /\ trim v <> [])
    as [-> | (v & -> & Hv)].
  { destruct envPYTHON as [v|]; [|by left].
    rewrite overrideCommands_trim. destruct (trim v) eqn:Ht; [by left|].
    right. exists v. by rewrite Ht. }
  - cbn [app]. rewrite Hlen. repeat split; try done. by left.
  - cbn [app length]. rewrite Hlen. repeat split.
    + by right.
    + by apply list_elem_of_further.
    + by apply list_elem_of_further.
    + constructor; [|done]. split; [done|].
      destruct (trim_split v) as (_ & _ & _ & _ & _ & ? & ?). done.
Qed.

(* ================================================================== *)
(** * Further properties of the readiness wait *)

Section WaitMore.

Implicit Types (start now : Z) (tr : list Iteration) (w : World).

Lemma waitLoop_outcome start tr : forall now w res w' t,
  waitLoop start now tr w = Some (res, w', t) ->
  (res = Ready /\ backendReady w' = true) \/
  (res = ChildExited /\ childGone w' = true) \/
  (res = TimedOut /\ BACKEND_TIMEOUT_MS <= t - start).
Proof.
  induction tr as [|it tr IH]; intros now w res w' t.
  - cbn [waitLoop]. destruct (_ <? _) eqn:Hlt; [discriminate|].
    intros [= <- <- <-]. right. right. split; [done|lia].
  - destruct (Z.lt_ge_cases (now - start) BACKEND_TIMEOUT_MS) as [Hlt|Hge].
    + rewrite (waitLoop_turn _ _ _ _ _ Hlt).
      destruct (pingBackend _).
      * discriminate.
      * intros [= <- <- _]. by left.
      * destruct (childGone _) eqn:Hgone.
        -- intros [= <- <- _]. right. by left.
        -- apply IH.
    + rewrite (waitLoop_expired _ _ _ _ Hge).
      intros [= <- <- <-]. right. by right.
Qed.

Lemma elapsedOf_nonneg (pre : list Iteration) :
  Forall failedTurn pre -> 0 <= elapsedOf pre.
Proof.
  induction 1 as [|it pre (_ & _ & ? & ?) _ IH]; cbn [elapsedOf foldr]; [done|].
  fold (elapsedOf pre). lia.
Qed.

(** Failed probes with a live child only move the clock. *)
Lemma waitLoop_after_failures start (pre : list Iteration) : forall now w tr,
  Forall failedTurn pre ->
  pre = [] \/ childGone w = false ->
  now - start + elapsedOf pre < BACKEND_TIMEOUT_MS ->
  waitLoop start now (pre ++ tr) w = waitLoop start (now + elapsedOf pre) tr w.
Proof.
  induction pre as [|it pre IH]; intros now w tr Hpre Halive Htime.
  - cbn. by rewrite Z.add_0_r.
  - destruct Halive as [|Halive]; [done|].
    apply Forall_cons in Hpre as [((reason & Hping) & (Hp & Hs) & Hp0 & Hs0) Hpre].
    pose proof (elapsedOf_nonneg pre Hpre) as Hnn.
    cbn [elapsedOf foldr] in Htime |- *. fold (elapsedOf pre) in Htime |- *.
    cbn [app]. rewrite waitLoop_turn by lia.
    rewrite Hping, Hp, Hs. cbn [dispatchAll foldl]. rewrite Halive.
    rewrite IH; [f_equal; lia | done | by right | lia].
Qed.

End WaitMore.

(** X5. Whatever the environment does during the wait, a wait that settles
    settles in one of three ways: ready, with the readiness flag set; with
    the child-exited error, the handle being cleared or the exit code of
    its child set at that moment; or with the timeout error, no earlier
    than the timeout after its start. No error of a probe escapes it. *)
Theorem waitForBackendReady_outcome (start : Z) (tr : list Iteration) (w : World)
    (res : Promise) (w' : World) (t : Z)
    (Hres : waitForBackendReady start tr w = Some (res, w', t)) :
  (res = Ready /\ backendReady w' = true) \/
  (res = ChildExited /\ childGone w' = true) \/
  (res = TimedOut /\ BACKEND_TIMEOUT_MS <= t - start).
Proof. by eapply waitLoop_outcome. Qed.

(** X6. After any number of failed probes during which nothing else
    happens and the child lives, a probe that starts before the deadline
    and succeeds makes the wait end ready, at the time that probe
    completes (be it after the deadline) and with the readiness flag as the
    only change beyond the handlers that ran during that probe. With no
    failed probe before it, this holds whether or not a child exists. *)
Theorem waitForBackendReady_ready_after (start : Z) (pre : list Iteration)
    (it : Iteration) (tr : list Iteration) (w : World)
    (Hpre : Forall failedTurn pre)
    (Halive : pre = [] \/ childGone w = false)
    (Htime : elapsedOf pre < BACKEND_TIMEOUT_MS)
    (Hok : pingBackend (requestEvents it) = Fulfilled) :
  waitForBackendReady start (pre ++ it :: tr) w =
    Some (Ready, setBackendReady true (dispatchAll (duringPing it) w),
          start + elapsedOf pre + pingMs it).
Proof.
  unfold waitForBackendReady.
  pose proof (elapsedOf_nonneg pre Hpre) as Hnn.
  rewrite waitLoop_after_failures by (done || lia).
  rewrite waitLoop_turn by lia. by rewrite Hok.
Qed.

(* ================================================================== *)
(** * Further properties of the exit listener and of [stopBackend] *)

Section ExitMore.

Implicit Types (k : KillOutcome) (w : World) (r : nat).

Lemma wf_handle_child w r :
  wf_world w -> pythonProcess w = Some r ->
  exists c, children w !! r = Some c /\ getChild w r = c /\
            exited c = false /\ ExitListener ∈ listeners c /\ killed c = false.
Proof.
  intros Hwf Hr. destruct (wf_handle w Hwf r Hr) as [(Hlt & Hl & He) Hk].
  destruct (lookup_lt_is_Some_2 _ _ Hlt) as [c Hc].
  assert (getChild w r = c) as Hget by (unfold getChild; by rewrite Hc).
  rewrite Hget in Hl, He, Hk. by exists c.
Qed.

Lemma dispatch_exit_handle w r st :
  wf_world w -> pythonProcess w = Some r ->
  dispatch (ChildExit r st) w =
    exitHandler st (updChild (recordExit st) r w).
Proof.
  intros Hwf Hr.
  destruct (wf_handle_child w r Hwf Hr) as (c & Hc & Hget & Hex & Hl & _).
  pose proof (lookup_lt_Some _ _ _ Hc) as Hlt.
  cbn [dispatch]. rewrite Hc, Hex. unfold hasListener.
  rewrite bool_decide_eq_true_2; [done|].
  rewrite getChild_updChild_eq, listeners_recordExit by done. by rewrite Hget.
Qed.

Lemma dispatch_exit_stray w r st :
  wf_world w -> pythonProcess w <> Some r ->
  dispatch (ChildExit r st) w = w \/
  dispatch (ChildExit r st) w = updChild (recordExit st) r w.
Proof.
  intros Hwf Hr. cbn [dispatch].
  destruct (children w !! r) as [c|] eqn:Hc; [|by left].
  destruct (exited c) eqn:Hex; [by left|]. right.
  pose proof (lookup_lt_Some _ _ _ Hc) as Hlt.
  assert (getChild w r = c) as Hget by (unfold getChild; by rewrite Hc).
  unfold hasListener. rewrite bool_decide_eq_false_2; [done|].
  rewrite getChild_updChild_eq, listeners_recordExit, Hget by done.
  intros Hl. apply Hr, (wf_single w Hwf). repeat split; by rewrite ?Hget.
Qed.

Lemma commands_stopBackend k w :
  commands (snd (stopBackend k w)) = commands w.
Proof.
  destruct (pythonProcess w) as [r|] eqn:Hr.
  - rewrite (stopBackend_some k w r Hr).
    destruct (killed _); [|destruct k];
      try apply (commands_updChild (withListeners []) r w); try done.
    change (commands (updChild (withKilled true) r
              (emit (KillRequested r) (removeAllListeners r w))) = commands w).
    rewrite commands_updChild by done.
    by apply (commands_updChild (withListeners []) r w).
  - by rewrite (stopBackend_none k w Hr).
Qed.

Lemma commands_dispatch ev w : commands (dispatch ev w) = commands w.
Proof.
  destruct ev as [r st|k|k| |]; cbn [dispatch]; try done.
  - destruct (children w !! r); [|done]. destruct (exited _); [done|].
    assert (commands (updChild (recordExit st) r w) = commands w) as Hrec
      by (apply commands_updChild; by destruct st).
    destruct (hasListener _ _ _); [|done].
    unfold commands in *. by rewrite children_exitHandler.
  - by rewrite commands_stopBackend.
  - by rewrite commands_stopBackend.
Qed.

Lemma commands_dispatchAll evs w : commands (dispatchAll evs w) = commands w.
Proof.
  revert w. induction evs as [|ev evs IH]; intros w; [done|].
  cbn [dispatchAll foldl]. fold (dispatchAll evs (dispatch ev w)).
  by rewrite IH, commands_dispatch.
Qed.

Lemma commands_waitLoop start tr : forall now w res w' t,
  waitLoop start now tr w = Some (res, w', t) -> commands w' = commands w.
Proof.
  induction tr as [|it tr IH]; intros now w res w' t; cbn [waitLoop].
  - destruct (_ <? _); [discriminate|]. by intros [= _ <- _].
  - destruct (_ <? _); [|by intros [= _ <- _]].
    destruct (pingBackend _).
    + discriminate.
    + intros [= _ <- _]. apply (commands_dispatchAll (duringPing it) w).
    + destruct (childGone _).
      * intros [= _ <- _]. apply commands_dispatchAll.
      * intros H. rewrite (IH _ _ _ _ _ H). by rewrite !commands_dispatchAll.
Qed.

End ExitMore.

(** X7. On a well-formed world, the exit of the child the handle names
    records the exit on the child object, clears the handle and the
    readiness flag and, unless the application is quitting, shows the crash
    dialog and then asks the application to quit. The dialog names the exit
    code when the child exited and the signal when it was killed. Nothing
    else changes. *)
Theorem unexpected_exit (w : World) (r : nat) (st : ExitStatus)
    (Hwf : wf_world w) (Hhandle : pythonProcess w = Some r) :
  dispatch (ChildExit r st) w =
    mkWorld None false (isQuitting w)
      (alter (recordExit st) r (children w))
      (effects w ++
         if isQuitting w then []
         else [ShowErrorBox (BackendCrashed (exitReason st)); AppQuit]).
Proof.
  rewrite dispatch_exit_handle by done. unfold exitHandler.
  cbn [isQuitting setBackendReady setPythonProcess updChild setChildren].
  destruct (isQuitting w) eqn:Hq; cbn [negb].
  - unfold setBackendReady, setPythonProcess. cbn. by rewrite app_nil_r, Hq.
  - destruct st; unfold emit, setBackendReady, setPythonProcess, updChild,
      setChildren; cbn; rewrite Hq; f_equal; by rewrite <- app_assoc.
Qed.

(** X8. On a well-formed world, the exit of any child other than the one
    the handle names leaves the handle, the readiness flag, the quitting
    flag and the log of effects as they were: at most the exit is recorded
    on that child's object. *)
Theorem stray_exit (w : World) (r : nat) (st : ExitStatus)
    (Hwf : wf_world w) (Hother : pythonProcess w <> Some r) :
  pythonProcess (dispatch (ChildExit r st) w) = pythonProcess w /\
  backendReady (dispatch (ChildExit r st) w) = backendReady w /\
  isQuitting (dispatch (ChildExit r st) w) = isQuitting w /\
  effects (dispatch (ChildExit r st) w) = effects w /\
  forall r', r' <> r ->
    getChild (dispatch (ChildExit r st) w) r' = getChild w r'.
Proof.
  destruct (dispatch_exit_stray w r st Hwf Hother) as [-> | ->];
    repeat split; try done.
  intros r' Hne. by apply getChild_updChild_ne.
Qed.

(** X9. The quit sequence runs [stopBackend] twice, from the before-quit
    handler and from the exit handler of the process. The second run
    changes nothing. After the first the application is quitting and has no
    handle; [kill] has been called once on the child the handle named
    (not marked killed before), and not at all when there was no handle. *)
Theorem quit_sequence (k k' : KillOutcome) (w : World) :
  dispatch (ProcessExit k') (dispatch (BeforeQuit k) w) = dispatch (BeforeQuit k) w /\
  isQuitting (dispatch (BeforeQuit k) w) = true /\
  pythonProcess (dispatch (BeforeQuit k) w) = None /\
  (forall r, pythonProcess w = Some r -> killed (getChild w r) = false ->
     effects (dispatch (BeforeQuit k) w) = effects w ++ [KillRequested r]) /\
  (pythonProcess w = None -> dispatch (BeforeQuit k) w = setIsQuitting true w).
Proof.
  cbn [dispatch]. repeat split.
  - by rewrite stopBackend_twice.
  - by rewrite isQuitting_stopBackend.
  - apply stopBackend_clears.
  - intros r Hr Hk.
    by rewrite (stopBackend_effects k (setIsQuitting true w) r Hr Hk).
  - intros Hnone. by rewrite (stopBackend_none k (setIsQuitting true w) Hnone).
Qed.

(** X10. [stopBackend] changes one child object only, the one the handle
    names: it loses its listeners and is marked killed exactly when the
    signal was delivered, its command, exit code and signal staying as
    they were. Every other child object, the number of child objects and
    the quitting flag are unchanged. *)
Theorem stopBackend_handle_only (k : KillOutcome) (w : World) (r : nat)
    (Hhandle : pythonProcess w = Some r)
    (Hchild : (r < length (children w))%nat)
    (Hfresh : killed (getChild w r) = false) :
  getChild (snd (stopBackend k w)) r =
    mkChild (spawnfile (getChild w r)) (exitCode (getChild w r))
            (signalCode (getChild w r))
            (match k with KillDelivered => true | _ => false end) [] /\
  (forall r', r' <> r -> getChild (snd (stopBackend k w)) r' = getChild w r') /\
  length (children (snd (stopBackend k w))) = length (children w) /\
  isQuitting (snd (stopBackend k w)) = isQuitting w.
Proof.
  destruct (stopBackend_children k w r Hhandle) as [Hlen Hothers].
  split; [|split; [exact Hothers | split; [exact Hlen | apply isQuitting_stopBackend]]].
  rewrite (stopBackend_some k w r Hhandle), Hfresh.
  assert (getChild (removeAllListeners r w) r = withListeners [] (getChild w r))
    as Hrm by (by apply getChild_updChild_eq).
  destruct k.
  - change (getChild (updChild (withKilled true) r
              (emit (KillRequested r) (removeAllListeners r w))) r = 
            mkChild (spawnfile (getChild w r)) (exitCode (getChild w r))
              (signalCode (getChild w r)) true []).
    rewrite getChild_updChild_eq.
    + change (getChild (emit (KillRequested r) (removeAllListeners r w)) r)
        with (getChild (removeAllListeners r w) r). by rewrite Hrm.
    + cbn [children emit]. unfold removeAllListeners.
      by rewrite length_children_updChild.
  - change (getChild (removeAllListeners r w) r =
            mkChild (spawnfile (getChild w r)) (exitCode (getChild w r))
              (signalCode (getChild w r)) false []).
    rewrite Hrm. unfold withListeners. by rewrite Hfresh.
  - change (getChild (removeAllListeners r w) r =
            mkChild (spawnfile (getChild w r)) (exitCode (getChild w r))
              (signalCode (getChild w r)) false []).
    rewrite Hrm. unfold withListeners. by rewrite Hfresh.
Qed.

(* ================================================================== *)
(** * Invariants of every run *)

Section Runs.

Variable P : World -> Prop.
Hypothesis P_dispatch : forall ev w, P w -> P (dispatch ev w).
Hypothesis P_ready : forall w, P w -> P (setBackendReady true w).
Hypothesis P_launch : forall sys w, P w -> P (snd (startBackend sys w)).

Lemma dispatchAll_preserves evs w : P w -> P (dispatchAll evs w).
Proof.
  revert w. induction evs as [|ev evs IH]; intros w Hw; [done|].
  apply IH, P_dispatch, Hw.
Qed.

Lemma waitLoop_preserves start tr : forall now w res w' t,
  P w -> waitLoop start now tr w = Some (res, w', t) -> P w'.
Proof.
  induction tr as [|it tr IH]; intros now w res w' t Hw; cbn [waitLoop].
  - destruct (_ <? _); [discriminate|]. by intros [= _ <- _].
  - destruct (_ <? _); [|by intros [= _ <- _]].
    destruct (pingBackend _).
    + discriminate.
    + intros [= _ <- _]. by apply P_ready, dispatchAll_preserves.
    + destruct (childGone _).
      * intros [= _ <- _]. by apply dispatchAll_preserves.
      * apply IH. by do 2 apply dispatchAll_preserves.
Qed.

Lemma perform_preserves a w : P w -> P (perform a w).
Proof.
  intros Hw. destruct a as [ev|sys|start tr]; cbn [perform].
  - by apply P_dispatch.
  - by apply P_launch.
  - unfold waitForBackendReady.
    destruct (waitLoop start start tr w) as [[[res w'] t]|] eqn:Hwait; [|done].
    by eapply waitLoop_preserves.
Qed.

Lemma run_preserves acts w : P w -> P (run acts w).
Proof.
  revert w. induction acts as [|a acts IH]; intros w Hw; [done|].
  apply IH, perform_preserves, Hw.
Qed.

End Runs.

Section KillOnce.

Implicit Types (k : KillOutcome) (w : World) (r : nat).

Lemma killCount_app r (l l' : list Effect) :
  killCount r (l ++ l') = (killCount r l + killCount r l')%nat.
Proof.
  induction l as [|e l IH]; [done|]. destruct e; cbn [app killCount]; lia.
Qed.

(** A step that logs no call of [kill] and re-attaches no exit listener. *)
Lemma killDiscipline_step w w' (l : list Effect) :
  effects w' = effects w ++ l ->
  (forall r, killCount r l = 0%nat) ->
  (forall r, unwatched r w -> unwatched r w') ->
  killDiscipline w -> killDiscipline w'.
Proof.
  intros He Hl Hu Hkd r. destruct (Hkd r) as [Hle Hun].
  rewrite He, killCount_app, Hl, Nat.add_0_r. split; [done|].
  intros H. by apply Hu, Hun.
Qed.

Lemma effects_startBackend sys w : effects (snd (startBackend sys w)) = effects w.
Proof.
  unfold startBackend. destruct (pythonProcess w); [done|].
  destruct (negb _); [done|]. unfold trySpawn.
  destruct (trySpawnFrom_shape (spawnOutcome sys)
              (drop 0 (candidateCommands (envPYTHON sys) (platform sys))) 0 w)
    as (p & h & b & new & ->). done.
Qed.

Lemma unwatched_startBackend sys w r :
  unwatched r w -> unwatched r (snd (startBackend sys w)).
Proof.
  intros Hu. unfold startBackend. destruct (pythonProcess w); [done|].
  destruct (negb _); [done|]. by apply unwatched_trySpawnFrom.
Qed.

Lemma killDiscipline_stopBackend k w :
  wf_world w -> killDiscipline w -> killDiscipline (snd (stopBackend k w)).
Proof.
  intros Hwf Hkd. destruct (pythonProcess w) as [r0|] eqn:Hr0;
    [|by rewrite (stopBackend_none k w Hr0)].
  destruct (wf_handle w Hwf r0 Hr0) as [(Hlt & Hl & _) Hk].
  assert (killCount r0 (effects w) = 0%nat) as Hzero.
  { destruct (killCount r0 (effects w)) as [|n] eqn:Hn; [done|]. exfalso.
    destruct (Hkd r0) as [_ Hun]. destruct Hun as [_ Hnl]; [lia|]. done. }
  intros r. rewrite (stopBackend_effects k w r0 Hr0 Hk), killCount_app.
  cbn [killCount]. case_bool_decide as Heq.
  - subst r. rewrite Hzero. split; [lia|]. intros _.
    by apply unwatched_stopped.
  - destruct (Hkd r) as [Hle Hun]. rewrite !Nat.add_0_r. split; [done|].
    intros H. by apply unwatched_stopBackend, Hun.
Qed.

Lemma killDiscipline_frame w w' :
  effects w' = effects w -> children w' = children w ->
  killDiscipline w -> killDiscipline w'.
Proof.
  intros He Hc. apply (killDiscipline_step w w' []).
  - by rewrite app_nil_r.
  - done.
  - intros r. by apply unwatched_frame.
Qed.

Lemma disciplined_dispatch ev w :
  wf_world w /\ killDiscipline w ->
  wf_world (dispatch ev w) /\ killDiscipline (dispatch ev w).
Proof.
  intros [Hwf Hkd]. split; [by apply wf_dispatch|].
  destruct ev as [r st|k|k| |].
  - assert (exists l, effects (dispatch (ChildExit r st) w) = effects w ++ l /\
                      forall r', killCount r' l = 0%nat) as (l & He & Hl).
    { cbn [dispatch]. destruct (children w !! r);
        [|exists []; by rewrite app_nil_r].
      destruct (exited _); [exists []; by rewrite app_nil_r|].
      destruct (hasListener _ _ _); [|exists []; by rewrite app_nil_r].
      unfold exitHandler. destruct (negb _).
      - eexists [_; _]. split; [cbn; by rewrite <- app_assoc|]. by destruct st.
      - exists []. by rewrite app_nil_r. }
    apply (killDiscipline_step w _ l He Hl); [|done].
    intros r'. apply unwatched_dispatch.
  - cbn [dispatch]. apply killDiscipline_stopBackend.
    + by apply (wf_frame w).
    + by apply (killDiscipline_frame w).
  - cbn [dispatch]. by apply killDiscipline_stopBackend.
  - by apply (killDiscipline_step w _ [AppQuit]).
  - by apply (killDiscipline_step w _ [AppQuit]).
Qed.

Lemma disciplined_run acts :
  wf_world (run acts initialWorld) /\ killDiscipline (run acts initialWorld).
Proof.
  apply (run_preserves (fun w => wf_world w /\ killDiscipline w)).
  - apply disciplined_dispatch.
  - intros w [Hwf Hkd]. split; [by apply (wf_frame w)|].
    by apply (killDiscipline_frame w).
  - intros sys w [Hwf Hkd]. split; [by apply wf_startBackend|].
    apply (killDiscipline_step w _ []); try done.
    + by rewrite app_nil_r, effects_startBackend.
    + intros r. apply unwatched_startBackend.
  - split; [apply wf_initial|]. intros r. cbn. split; [lia|]. lia.
Qed.

End KillOnce.

(** X12. In every run of the program from its start, [kill] is called at
    most once on any child, and a child on which it was called has no exit
    listener attached: its exit cannot raise the crash dialog. *)
Theorem kill_at_most_once (acts : list Action) (r : nat) :
  (killCount r (effects (run acts initialWorld)) <= 1)%nat /\
  ((1 <= killCount r (effects (run acts initialWorld)))%nat ->
     unwatched r (run acts initialWorld)).
Proof. apply (proj2 (disciplined_run acts) r). Qed.

(* ================================================================== *)
(** * Properties of the output forwarding *)

Lemma trim_nil_iff (s : jsstring) : trim s = [] <-> blank s.
Proof.
  split; [|apply trim_blank].
  intros Ht. destruct (trim_split s) as (pre & post & Hs & Hpre & Hpost & _).
  rewrite Ht in Hs. rewrite Hs. unfold blank in *.
  apply Forall_app. split; [done|]. by apply Forall_app.
Qed.

(** X13. A chunk of backend output is written exactly when it holds a code
    unit that is not white space. What is written is the tag of the stream
    followed by the chunk as it came: taking the tag off gives the chunk
    back, white space included. *)
Theorem logBackendOutput_forwards (prefix text : jsstring) :
  (logBackendOutput prefix text = None <-> blank text) /\
  (forall out, logBackendOutput prefix text = Some out ->
     out = lit "[backend " ++ prefix ++ lit "] " ++ text /\
     drop (length (lit "[backend ") + length prefix + length (lit "] ")) out = text).
Proof.
  unfold logBackendOutput.
  generalize (lit "[backend ") (lit "] "). intros tag sep. split.
  - rewrite <- trim_nil_iff. destruct (trim text) as [|c t]; cbn [length].
    + done.
    + assert ((0 <? Z.of_nat (S (length t))) = true) as ->
        by (apply Z.ltb_lt; lia).
      done.
  - intros out. destruct (0 <? _); [|discriminate]. intros [= <-].
    split; [reflexivity|].
    rewrite <- !length_app.
    rewrite (app_assoc tag prefix), (app_assoc _ sep text).
    apply drop_app_length.
Qed.

(* ================================================================== *)
(** * Properties of the application *)

Section Windows.

Implicit Types (a : App) (act : AppAction).

Lemma oneWindow_frame a a' :
  mainWindow a' = mainWindow a -> openWindows a' = openWindows a ->
  oneWindow a -> oneWindow a'.
Proof. unfold oneWindow. by intros -> ->. Qed.

Lemma oneWindow_createMainWindow a : oneWindow a -> oneWindow (createMainWindow a).
Proof.
  unfold oneWindow, createMainWindow.
  destruct (mainWindow a) eqn:Hm; [by rewrite Hm|].
  intros ->. done.
Qed.

Lemma oneWindow_launchApplication sys start tr a :
  oneWindow a -> oneWindow (fst (launchApplication sys start tr a)).
Proof.
  intros H. unfold launchApplication.
  destruct (startBackend sys (world a)) as [[| |error] w1]; cbn [fst];
    try by apply (oneWindow_frame a).
  destruct (waitForBackendReady start tr w1) as [[[[| |error] w2] t]|]; cbn [fst];
    try by apply (oneWindow_frame a).
  apply oneWindow_createMainWindow. by apply (oneWindow_frame a).
Qed.

Lemma oneWindow_performApp act a : oneWindow a -> oneWindow (performApp act a).
Proof.
  intros H. destruct act as [ev|sys start tr| |start tr|minimized| |id|id|id msg];
    cbn [performApp].
  - by apply (oneWindow_frame a).
  - unfold whenReady.
    set (a1 := if bool_decide _ then _ else a).
    assert (oneWindow a1) as H1.
    { unfold a1. case_bool_decide; [by apply (oneWindow_frame a) | done]. }
    pose proof (oneWindow_launchApplication (onHost a sys) start tr a1 H1) as H2.
    destruct (launchApplication _ _ _ a1) as [a2 returned]. cbn [fst] in H2.
    destruct returned; [by apply (oneWindow_frame a2) | done].
  - unfold activateBegin. destruct (activateListening a); [|done].
    destruct (openWindows a); [|done].
    destruct (backendReady _); [by apply oneWindow_createMainWindow|].
    by apply (oneWindow_frame a).
  - unfold activateSettled. destruct (waitingActivations a) as [|n]; [done|].
    destruct (waitForBackendReady start tr (world a)) as [[[[| |error] w'] t]|];
      [exact H| |by apply (oneWindow_frame a)|exact H].
    cbn zeta.
    assert (oneWindow (setWaitingActivations n (setWorld w' a))) as H'
      by (by apply (oneWindow_frame a)).
    destruct (openWindows _); [by apply oneWindow_createMainWindow | done].
  - unfold secondInstance. destruct (mainWindow a) eqn:Hm; [|done].
    destruct minimized; by apply (oneWindow_frame a).
  - unfold windowAllClosed. case_bool_decide; [by apply (oneWindow_frame a) | done].
  - unfold readyToShow. case_bool_decide; [|done]. cbn [mainWindow].
    destruct (mainWindow a) eqn:Hm; apply (oneWindow_frame a); try done.
  - unfold windowClosed. case_bool_decide as Hin; [|done].
    unfold oneWindow in *. cbn [mainWindow openWindows]. rewrite H in Hin |- *.
    destruct (mainWindow a) as [m|]; [|by apply elem_of_nil in Hin].
    apply list_elem_of_singleton in Hin as ->.
    cbn [filter list_filter]. by rewrite decide_False by (intros ?; done).
  - unfold loadFailed. case_bool_decide; [by apply (oneWindow_frame a) | done].
Qed.

Lemma oneWindow_runApp acts a : oneWindow a -> oneWindow (runApp acts a).
Proof.
  revert a. induction acts as [|act acts IH]; intros a H; [done|].
  apply IH, oneWindow_performApp, H.
Qed.

End Windows.

(** X14. In every run of the application there is at most one window, and
    it is the main window: the list of open windows is empty exactly when
    [mainWindow] is null. Activations that overlap, or that arrive while a
    window is open, open no second window. *)
Theorem single_window (platform : jsstring) (acts : list AppAction) :
  oneWindow (runApp acts (initialApp platform)) /\
  (length (openWindows (runApp acts (initialApp platform))) <= 1)%nat /\
  (openWindows (runApp acts (initialApp platform)) = [] <->
   mainWindow (runApp acts (initialApp platform)) = None).
Proof.
  assert (oneWindow (runApp acts (initialApp platform))) as H
    by (by apply oneWindow_runApp).
  split; [done|]. unfold oneWindow in H. rewrite H.
  destruct (mainWindow _); cbn; split; (lia || done).
Qed.

Section Gate.

Implicit Types (a : App) (act : AppAction).

Lemma wait_fulfilled_ready start tr w w' t :
  waitForBackendReady start tr w = Some (Fulfilled, w', t) ->
  backendReady w' = true.
Proof.
  intros H. destruct (waitLoop_outcome start tr start w _ _ _ H)
    as [[_ ?] | [[? _] | [? _]]]; done.
Qed.

Lemma wait_rejected_reason start tr w error w' t :
  waitForBackendReady start tr w = Some (Rejected error, w', t) ->
  Rejected error = ChildExited \/ Rejected error = TimedOut.
Proof.
  intros H. destruct (waitLoop_outcome start tr start w _ _ _ H)
    as [[? _] | [[? _] | [? _]]]; [done | by left | by right].
Qed.

Lemma launch_opens_when_ready sys start tr a :
  mainWindow a = None ->
  is_Some (mainWindow (fst (launchApplication sys start tr a))) ->
  backendReady (world (fst (launchApplication sys start tr a))) = true.
Proof.
  intros Hnone. unfold launchApplication.
  destruct (startBackend sys (world a)) as [[| |error] w1]; cbn [fst];
    try (cbn; rewrite Hnone; by intros [? ?]).
  destruct (waitForBackendReady start tr w1) as [[[[| |error] w2] t]|] eqn:Hw;
    cbn [fst]; try (cbn; rewrite Hnone; by intros [? ?]).
  intros _. unfold createMainWindow. cbn [mainWindow setWorld]. rewrite Hnone.
  cbn [world]. by eapply wait_fulfilled_ready.
Qed.

End Gate.

(** X15. Whatever handler runs, when it opens the main window the
    readiness flag is set once it is done: a window is opened by the
    launcher or by an activation only with the backend known to be ready. *)
Theorem window_needs_ready (act : AppAction) (a : App)
    (Hnone : mainWindow a = None)
    (Hopened : is_Some (mainWindow (performApp act a))) :
  backendReady (world (performApp act a)) = true.
Proof.
  destruct act as [ev|sys start tr| |start tr|minimized| |id|id|id msg];
    cbn [performApp] in *.
  - cbn in Hopened. rewrite Hnone in Hopened. by destruct Hopened.
  - unfold whenReady in *.
    set (a1 := if bool_decide _ then _ else a) in *.
    assert (mainWindow a1 = None) as H1 by (unfold a1; by case_bool_decide).
    pose proof (launch_opens_when_ready (onHost a sys) start tr a1 H1) as Hl.
    destruct (launchApplication _ _ _ a1) as [a2 returned]. cbn [fst] in Hl.
    destruct returned; by apply Hl.
  - unfold activateBegin in *. destruct (activateListening a);
      [|rewrite Hnone in Hopened; by destruct Hopened].
    destruct (openWindows a); [|rewrite Hnone in Hopened; by destruct Hopened].
    destruct (backendReady (world a)) eqn:Hready.
    + unfold createMainWindow. by rewrite Hnone.
    + cbn in Hopened. rewrite Hnone in Hopened. by destruct Hopened.
  - unfold activateSettled in *. destruct (waitingActivations a) as [|n];
      [rewrite Hnone in Hopened; by destruct Hopened|].
    destruct (waitForBackendReady start tr (world a)) as [[[[| |error] w'] t]|] eqn:Hw;
      try (cbn in Hopened; rewrite Hnone in Hopened; by destruct Hopened).
    cbn zeta in *.
    assert (backendReady w' = true) as Hready by (by eapply wait_fulfilled_ready).
    destruct (openWindows _).
    + unfold createMainWindow. cbn [mainWindow setWaitingActivations setWorld].
      by rewrite Hnone.
    + done.
  - unfold secondInstance in *. rewrite Hnone in Hopened.
    rewrite Hnone in Hopened. by destruct Hopened.
  - unfold windowAllClosed in *. case_bool_decide;
      cbn in Hopened; rewrite Hnone in Hopened; by destruct Hopened.
  - unfold readyToShow in *. case_bool_decide;
      cbn in Hopened; rewrite Hnone in Hopened; cbn in Hopened;
      try rewrite Hnone in Hopened; by destruct Hopened.
  - unfold windowClosed in *. case_bool_decide;
      cbn in Hopened; try rewrite Hnone in Hopened; by destruct Hopened.
  - unfold loadFailed in *. case_bool_decide;
      cbn in Hopened; rewrite Hnone in Hopened; by destruct Hopened.
Qed.

Section LaunchEffects.

Implicit Types (tr : list Iteration) (w : World).

Lemma world_createMainWindow (a : App) : world (createMainWindow a) = world a.
Proof. unfold createMainWindow. by destruct (mainWindow a). Qed.

Lemma dispatchAll_app (l1 l2 : list Event) w :
  dispatchAll (l1 ++ l2) w = dispatchAll l2 (dispatchAll l1 w).
Proof. apply foldl_app. Qed.

(** The world a wait leaves: the handlers of its trace that ran, then the
    readiness flag when it ends ready. *)
Lemma waitLoop_world start tr : forall now w res w' t,
  waitLoop start now tr w = Some (res, w', t) ->
  exists evs,
    evs ⊆ tr ≫= turnEvents /\
    w' = (match res with
          | Fulfilled => setBackendReady true
          | _ => fun w0 => w0
          end) (dispatchAll evs w).
Proof.
  induction tr as [|it tr IH]; intros now w res w' t; cbn [waitLoop].
  - destruct (_ <? _); [discriminate|]. intros [= <- <- _]. by exists [].
  - destruct (_ <? _);
      [|intros [= <- <- _]; exists []; split; [apply list_subseteq_nil | done]].
    destruct (pingBackend _).
    + discriminate.
    + intros [= <- <- _]. exists (duringPing it). split; [|done].
      intros ev Hev. cbn. unfold turnEvents. rewrite !elem_of_app. auto.
    + destruct (childGone _).
      * intros [= <- <- _]. exists (duringPing it). split; [|done].
        intros ev Hev. cbn. unfold turnEvents. rewrite !elem_of_app. auto.
      * intros H. destruct (IH _ _ _ _ _ H) as (evs & Hsub & ->).
        exists (turnEvents it ++ evs). split.
        -- intros ev. cbn. rewrite !elem_of_app. intros [?|?]; [by left|].
           right. by apply Hsub.
        -- unfold turnEvents. by rewrite !dispatchAll_app.
Qed.

Lemma quiet_no_events tr : Forall quiet tr -> tr ≫= turnEvents = [].
Proof.
  induction 1 as [|it tr [Hp Hs] _ IH]; [done|].
  rewrite bind_cons, IH. unfold turnEvents. by rewrite Hp, Hs.
Qed.

End LaunchEffects.

(** X16. A launch that returns has done one of two things. Either the
    backend started and the wait ended ready: then the main window is
    opened (unless one exists) and the launcher shows no startup error box
    and requests no quit. Or it failed: then the launcher shows exactly one
    startup error box, with the message of the error that ended the launch
    (the rejection of [startBackend], or the child-exited or timed-out
    error of the wait), followed by one request to quit; no window is
    opened, and the world is left as the failing step left it: the
    launcher does not stop the backend itself. In both cases the
    supervisor's log of effects grows only by what the handlers that ran
    during the wait added to it, such as the crash dialog and quit request
    of the exit listener, which can be issued even though the wait then
    ends ready; it is unchanged when no handler ran. *)
Theorem launchApplication_outcome (sys : System) (start : Z)
    (tr : list Iteration) (a a' : App)
    (Hreturned : launchApplication sys start tr a = (a', true)) :
  (exists evs,
     evs ⊆ tr ≫= turnEvents /\
     effects (world a') =
       effects (dispatchAll evs (snd (startBackend sys (world a))))) /\
  effects (snd (startBackend sys (world a))) = effects (world a) /\
  (Forall quiet tr -> effects (world a') = effects (world a)) /\
  ((exists w2 t,
      fst (startBackend sys (world a)) = Fulfilled /\
      waitForBackendReady start tr (snd (startBackend sys (world a)))
        = Some (Ready, w2, t) /\
      backendReady w2 = true /\
      a' = createMainWindow (setWorld w2 a) /\
      uiLog a' = uiLog a) \/
   (exists error w',
      (startBackend sys (world a) = (Rejected error, w') \/
       (fst (startBackend sys (world a)) = Fulfilled /\
        (Rejected error = ChildExited \/ Rejected error = TimedOut) /\
        exists t, waitForBackendReady start tr (snd (startBackend sys (world a)))
                  = Some (Rejected error, w', t))) /\
      world a' = w' /\
      uiLog a' =
        uiLog a ++ [StartupErrorBox (startupMessage error); QuitRequested] /\
      mainWindow a' = mainWindow a /\
      openWindows a' = openWindows a)).
Proof.
  assert (exists evs,
     evs ⊆ tr ≫= turnEvents /\
     effects (world a') =
       effects (dispatchAll evs (snd (startBackend sys (world a))))) as Hevs.
  { unfold launchApplication in Hreturned.
    destruct (startBackend sys (world a)) as [[| |error] w1] eqn:Hstart.
    - discriminate.
    - cbn [snd].
      destruct (waitForBackendReady start tr w1) as [[[[| |error] w2] t]|] eqn:Hw;
        try discriminate; injection Hreturned as <-;
        destruct (waitLoop_world start tr start w1 _ _ _ Hw) as (evs & Hsub & ->);
        exists evs; (split; [done|]).
      + by rewrite world_createMainWindow.
      + done.
    - injection Hreturned as <-. exists []. split; [apply list_subseteq_nil | done]. }
  split; [exact Hevs|]. split; [apply effects_startBackend|]. split.
  { intros Hquiet. destruct Hevs as (evs & Hsub & ->).
    rewrite (quiet_no_events tr Hquiet) in Hsub.
    assert (evs = []) as ->.
    { destruct evs as [|ev evs]; [done|]. exfalso.
      by apply (not_elem_of_nil ev), Hsub, list_elem_of_here. }
    apply effects_startBackend. }
  unfold launchApplication in Hreturned.
  destruct (startBackend sys (world a)) as [[| |error] w1] eqn:Hstart.
  - discriminate.
  - cbn [fst snd].
    destruct (waitForBackendReady start tr w1) as [[[[| |error] w2] t]|] eqn:Hw;
      try discriminate.
    + left. injection Hreturned as <-. exists w2, t.
      repeat split; try done.
      * by eapply wait_fulfilled_ready.
      * unfold createMainWindow. by destruct (mainWindow _).
    + right. injection Hreturned as <-. exists error, w2.
      split; [|repeat split; cbn; by rewrite <- ?app_assoc].
      right. split; [done|]. split; [by eapply wait_rejected_reason | eauto].
  - right. injection Hreturned as <-. exists error, w1.
    split; [by left|]. repeat split; cbn; by rewrite <- ?app_assoc.
Qed.

Section AppInvariant.

Implicit Types (a : App) (act : AppAction).

Lemma run_app (l1 l2 : list Action) (w : World) :
  run (l1 ++ l2) w = run l2 (run l1 w).
Proof. apply foldl_app. Qed.

(** What a handler of the application does to the world is a run of the
    supervisor. *)
Lemma world_performApp act a :
  exists ws, world (performApp act a) = run ws (world a).
Proof.
  destruct act as [ev|sys start tr| |start tr|minimized| |id|id|id msg];
    cbn [performApp].
  - by exists [DoEvent ev].
  - unfold whenReady.
    set (a1 := if bool_decide _ then _ else a).
    assert (world a1 = world a) as H1 by (unfold a1; by case_bool_decide).
    assert (exists ws, world (fst (launchApplication (onHost a sys) start tr a1))
                       = run ws (world a)) as (ws & Hws).
    { unfold launchApplication. rewrite H1.
      destruct (startBackend (onHost a sys) (world a)) as [p w1] eqn:Hstart.
      assert (w1 = run [DoStartBackend (onHost a sys)] (world a)) as Hw1
        by (cbn; by rewrite Hstart).
      destruct p as [| |error]; cbn [fst]; try by exists [DoStartBackend (onHost a sys)].
      destruct (waitForBackendReady start tr w1) as [[[[| |error] w2] t]|] eqn:Hw;
        cbn [fst]; try by exists [DoStartBackend (onHost a sys)].
      - exists [DoStartBackend (onHost a sys); DoWaitForBackendReady start tr].
        rewrite world_createMainWindow.
        change (run [DoStartBackend (onHost a sys); DoWaitForBackendReady start tr]
                  (world a))
          with (perform (DoWaitForBackendReady start tr)
                  (snd (startBackend (onHost a sys) (world a)))).
        rewrite Hstart. cbn [snd perform]. by rewrite Hw.
      - exists [DoStartBackend (onHost a sys); DoWaitForBackendReady start tr].
        change (run [DoStartBackend (onHost a sys); DoWaitForBackendReady start tr]
                  (world a))
          with (perform (DoWaitForBackendReady start tr)
                  (snd (startBackend (onHost a sys) (world a)))).
        rewrite Hstart. cbn [snd perform]. by rewrite Hw. }
    destruct (launchApplication _ _ _ a1) as [a2 returned]. cbn [fst] in Hws.
    exists ws. by destruct returned.
  - exists []. unfold activateBegin. destruct (activateListening a); [|done].
    destruct (openWindows a); [|done].
    destruct (backendReady _); [apply world_createMainWindow | done].
  - unfold activateSettled. destruct (waitingActivations a) as [|n]; [by exists []|].
    destruct (waitForBackendReady start tr (world a)) as [[[[| |error] w'] t]|] eqn:Hw;
      try by exists [].
    + exists [DoWaitForBackendReady start tr]. cbn zeta.
      destruct (openWindows _); rewrite ?world_createMainWindow;
        cbn; by rewrite Hw.
    + exists [DoWaitForBackendReady start tr]. cbn. by rewrite Hw.
  - exists []. unfold secondInstance. destruct (mainWindow a); [|done].
    by destruct minimized.
  - exists []. unfold windowAllClosed. by case_bool_decide.
  - exists []. unfold readyToShow. case_bool_decide; [|done].
    cbn [mainWindow]. by destruct (mainWindow a).
  - exists []. unfold windowClosed. by case_bool_decide.
  - exists []. unfold loadFailed. by case_bool_decide.
Qed.

Lemma reachable_runApp acts a :
  reachable (world a) -> reachable (world (runApp acts a)).
Proof.
  revert a. induction acts as [|act acts IH]; intros a Hr; [done|].
  apply IH. destruct Hr as [ws Hws].
  destruct (world_performApp act a) as [ws' Hws'].
  exists (ws ++ ws'). by rewrite run_app, <- Hws.
Qed.

Lemma dispatch_childless ev w :
  children w = [] -> pythonProcess w = None ->
  children (dispatch ev w) = [] /\ pythonProcess (dispatch ev w) = None.
Proof.
  intros Hc Hp. destruct ev as [r st|k|k| |]; cbn [dispatch]; try done.
  - by rewrite Hc.
  - by rewrite (stopBackend_none k (setIsQuitting true w) Hp).
  - by rewrite (stopBackend_none k w Hp).
Qed.

Lemma dormant_performApp act a :
  isWhenReady act = false -> dormant a -> dormant (performApp act a).
Proof.
  intros Hact (Hc & Hp & Hm & Ho & Hn & Hs & Hl & Hw).
  destruct act as [ev|sys start tr| |start tr|minimized| |id|id|id msg];
    cbn [performApp]; try discriminate.
  - destruct (dispatch_childless ev (world a) Hc Hp). by repeat split.
  - unfold activateBegin. rewrite Hl. by repeat split.
  - unfold activateSettled. rewrite Hw. by repeat split.
  - unfold secondInstance. rewrite Hm. by repeat split.
  - unfold windowAllClosed. case_bool_decide; by repeat split.
  - unfold readyToShow. rewrite Hs.
    rewrite bool_decide_eq_false_2 by apply not_elem_of_nil. by repeat split.
  - unfold windowClosed. rewrite Ho.
    rewrite bool_decide_eq_false_2 by apply not_elem_of_nil. by repeat split.
  - unfold loadFailed. rewrite Hn.
    rewrite bool_decide_eq_false_2 by lia. by repeat split.
Qed.

End AppInvariant.

Lemma commands_performApp (act : AppAction) (a : App) :
  isWhenReady act = false ->
  commands (world (performApp act a)) = commands (world a).
Proof.
  intros Hact.
  destruct act as [ev|sys start tr| |start tr|minimized| |id|id|id msg];
    cbn [performApp]; try discriminate.
  - apply commands_dispatch.
  - unfold activateBegin. destruct (activateListening a); [|done].
    destruct (openWindows a); [|done].
    destruct (backendReady _); [by rewrite world_createMainWindow | done].
  - unfold activateSettled. destruct (waitingActivations a) as [|n]; [done|].
    destruct (waitForBackendReady start tr (world a)) as [[[[| |error] w'] t]|] eqn:Hw;
      try done.
    + cbn zeta. destruct (openWindows _); rewrite ?world_createMainWindow;
        cbn [world setWaitingActivations setWorld];
        by eapply commands_waitLoop.
    + cbn. by eapply commands_waitLoop.
  - unfold secondInstance. destruct (mainWindow a); [|done]. by destruct minimized.
  - unfold windowAllClosed. by case_bool_decide.
  - unfold readyToShow. case_bool_decide; [|done].
    cbn [mainWindow]. by destruct (mainWindow a).
  - unfold windowClosed. by case_bool_decide.
  - unfold loadFailed. by case_bool_decide.
Qed.

(** X11. Apart from the ready continuation, which calls [startBackend], no
    handler of the application creates a child object or changes the
    command of one: through any sequence of supervisor events (the exit of
    a child among them), activations and their waits, second-instance
    notices and window events, the commands of the child objects stay what
    they were. No handler starts the backend again. *)
Theorem only_launch_spawns (acts : list AppAction) (a : App)
    (Hacts : Forall (fun act => isWhenReady act = false) acts) :
  commands (world (runApp acts a)) = commands (world a).
Proof.
  revert a. induction Hacts as [|act acts Hact _ IH]; intros a; [done|].
  cbn [runApp foldl]. fold (runApp acts (performApp act a)).
  by rewrite IH, commands_performApp.
Qed.

(** X17. In every state of the application the supervisor's world is one
    the supervisor can reach by itself, so its invariants hold there: the
    handle names a supervised child on which [kill] has not succeeded, no
    other child is supervised, and [kill] has been called at most once on
    any child. *)
Theorem app_keeps_supervisor_invariant (platform : jsstring)
    (acts : list AppAction) :
  reachable (world (runApp acts (initialApp platform))) /\
  wf_world (world (runApp acts (initialApp platform))) /\
  killDiscipline (world (runApp acts (initialApp platform))).
Proof.
  assert (reachable (world (runApp acts (initialApp platform)))) as Hr.
  { apply reachable_runApp. by exists []. }
  split; [done|]. destruct Hr as [ws ->]. apply disciplined_run.
Qed.

(** X18. Until the ready handler of the application has run, nothing
    happens: whatever events, activations, second-instance notices and
    window events arrive, no child object exists, there is no handle, no
    window, no wait of an activation, and the activate handler is not
    registered. *)
Theorem nothing_before_ready (platform : jsstring) (acts : list AppAction)
    (Hacts : Forall (fun act => isWhenReady act = false) acts) :
  dormant (runApp acts (initialApp platform)).
Proof.
  assert (forall a, dormant a -> dormant (runApp acts a)) as H.
  { induction Hacts as [|act acts Hact _ IH]; intros a Ha; [done|].
    apply IH. by apply dormant_performApp. }
  apply H. by repeat split.
Qed.

(* ================================================================== *)
(** * The further properties on sample environments *)

Module Cases.
Import Sample SampleApp.

Example readyApp_eq :
  readyApp =
    mkApp (lit "linux") (setBackendReady true liveWorld) (Some 0%nat) [0%nat] 1
          [0%nat] true 0 [].
Proof. reflexivity. Qed.

(** Two activations started while the backend was not ready, both waits
    ending ready: one window. *)
Example overlapping_activations :
  let a0 := mkApp (lit "darwin") liveWorld None [] 0 [] true 0 [] in
  openWindows
    (runApp [ActivateBegin; ActivateBegin;
             ActivateSettled 0 [readyTurn]; ActivateSettled 5 [readyTurn]] a0)
  = [0%nat].
Proof. reflexivity. Qed.

Example missing_script_reported :
  whenReady sysNoScript 0 [readyTurn] (initialApp (lit "win32")) =
    mkApp (lit "win32") initialWorld None [] 0 [] true 0
      [SetAppUserModelId;
       StartupErrorBox (ErrorMessage MsgEntryPointNotFound);
       QuitRequested].
Proof. reflexivity. Qed.

Lemma trySpawn_first_success_witness :
  trySpawn (spawnOutcome sysSecond) [lit "python3"; lit "python"] 0 initialWorld =
    (Fulfilled,
     mkWorld (Some 1%nat) false false
       [failedChild (lit "python3") (-2);
        freshChild (lit "python") [ExitListener]]
       []) /\
  attempted initialWorld
    (snd (trySpawn (spawnOutcome sysSecond) [lit "python3"; lit "python"] 0
            initialWorld))
  = [lit "python3"; lit "python"].
Proof.
  destruct (trySpawn_first_success (spawnOutcome sysSecond)
              [lit "python3"; lit "python"] initialWorld 1 (lit "python"))
    as (Heq & _ & _ & Hattempted).
  - reflexivity.
  - intros [|j] Hj; [|lia]. exists (lit "python3"), enoent.
    repeat split. by exists (-2).
  - reflexivity.
  - split; [exact Heq | exact Hattempted].
Defined.

Lemma waitForBackendReady_outcome_witness :
  (ChildExited = Ready /\
   backendReady (dispatchAll (duringPing crashTurn) liveWorld) = true) \/
  (ChildExited = ChildExited /\
   childGone (dispatchAll (duringPing crashTurn) liveWorld) = true) \/
  (ChildExited = TimedOut /\ BACKEND_TIMEOUT_MS <= 7 - 0).
Proof.
  apply (waitForBackendReady_outcome 0 [crashTurn] liveWorld ChildExited
           (dispatchAll (duringPing crashTurn) liveWorld) 7).
  reflexivity.
Defined.

Lemma waitForBackendReady_ready_after_witness :
  waitForBackendReady 0 (replicate 176 refusedTurn ++ lateTurn :: []) liveWorld =
    Some (Ready, setBackendReady true (dispatchAll (duringPing lateTurn) liveWorld),
          0 + elapsedOf (replicate 176 refusedTurn) + pingMs lateTurn) /\
  BACKEND_TIMEOUT_MS < 0 + elapsedOf (replicate 176 refusedTurn) + pingMs lateTurn.
Proof.
  split.
  - apply (waitForBackendReady_ready_after 0 (replicate 176 refusedTurn)
             lateTurn [] liveWorld).
    + apply Forall_replicate. split; [by eexists|]. split; [by split|].
      cbn. lia.
    + right. reflexivity.
    + vm_compute. reflexivity.
    + reflexivity.
  - vm_compute. reflexivity.
Defined.

Lemma unexpected_exit_witness :
  dispatch (ChildExit 0 (KilledBy (lit "SIGKILL"))) liveWorld =
    mkWorld None false (isQuitting liveWorld)
      (alter (recordExit (KilledBy (lit "SIGKILL"))) 0%nat (children liveWorld))
      (effects liveWorld ++
         if isQuitting liveWorld then []
         else [ShowErrorBox (BackendCrashed (exitReason (KilledBy (lit "SIGKILL"))));
               AppQuit]).
Proof.
  apply (unexpected_exit liveWorld 0 (KilledBy (lit "SIGKILL"))).
  - apply reachable_wf. exists [DoStartBackend sysOk]. reflexivity.
  - reflexivity.
Defined.

Lemma stray_exit_witness :
  pythonProcess (dispatch (ChildExit 0 (ExitedWith 127)) secondWorld)
    = pythonProcess secondWorld /\
  backendReady (dispatch (ChildExit 0 (ExitedWith 127)) secondWorld)
    = backendReady secondWorld /\
  isQuitting (dispatch (ChildExit 0 (ExitedWith 127)) secondWorld)
    = isQuitting secondWorld /\
  effects (dispatch (ChildExit 0 (ExitedWith 127)) secondWorld)
    = effects secondWorld /\
  forall r', r' <> 0%nat ->
    getChild (dispatch (ChildExit 0 (ExitedWith 127)) secondWorld) r'
    = getChild secondWorld r'.
Proof.
  apply (stray_exit secondWorld 0 (ExitedWith 127)).
  - apply reachable_wf. exists [DoStartBackend sysSecond]. reflexivity.
  - discriminate.
Defined.

Lemma stopBackend_handle_only_witness :
  getChild (snd (stopBackend KillDelivered liveWorld)) 0 =
    mkChild (spawnfile (getChild liveWorld 0)) (exitCode (getChild liveWorld 0))
            (signalCode (getChild liveWorld 0)) true [] /\
  (forall r', r' <> 0%nat ->
     getChild (snd (stopBackend KillDelivered liveWorld)) r' = getChild liveWorld r') /\
  length (children (snd (stopBackend KillDelivered liveWorld)))
    = length (children liveWorld) /\
  isQuitting (snd (stopBackend KillDelivered liveWorld)) = isQuitting liveWorld.
Proof.
  apply (stopBackend_handle_only KillDelivered liveWorld 0).
  - reflexivity.
  - vm_compute. constructor.
  - reflexivity.
Defined.

Lemma only_launch_spawns_witness :
  commands
    (world (runApp [OnEvent (ChildExit 0 (ExitedWith 1)); ActivateBegin;
                    ActivateSettled 0 [readyTurn]; SecondInstance false;
                    OnEvent (BeforeQuit KillDelivered)] readyApp))
  = [lit "python3"].
Proof.
  apply (only_launch_spawns
           [OnEvent (ChildExit 0 (ExitedWith 1)); ActivateBegin;
            ActivateSettled 0 [readyTurn]; SecondInstance false;
            OnEvent (BeforeQuit KillDelivered)] readyApp).
  repeat constructor.
Defined.

Lemma window_needs_ready_witness :
  backendReady
    (world (performApp (WhenReady sysOk 0 [refusedTurn; readyTurn])
              (initialApp (lit "linux")))) = true.
Proof.
  apply (window_needs_ready (WhenReady sysOk 0 [refusedTurn; readyTurn])
           (initialApp (lit "linux"))).
  - reflexivity.
  - vm_compute. eexists. reflexivity.
Defined.

Lemma launchApplication_outcome_witness :
  uiLog (fst (launchApplication sysNone 0 [readyTurn] (initialApp (lit "win32"))))
  = [StartupErrorBox (ErrorMessage MsgNoInterpreter); QuitRequested].
Proof.
  destruct (launchApplication_outcome sysNone 0 [readyTurn]
              (initialApp (lit "win32"))
              (fst (launchApplication sysNone 0 [readyTurn] (initialApp (lit "win32"))))
              eq_refl)
    as (_ & _ & _ & [(w2 & t & Hstart & _) | (error & w' & Hstage & _ & Hlog & _)]).
  - discriminate Hstart.
  - destruct Hstage as [Hstart | (Hstart & _)]; [|discriminate Hstart].
    injection Hstart as <- _. exact Hlog.
Defined.

(** The child dies during the probe while something else answers 200: the
    exit listener shows the crash dialog and requests a quit, and the
    launch still ends ready and opens the window. *)
Example ready_despite_crash :
  let a' := fst (launchApplication sysOk 0
                   [mkIteration [HttpResponse (Some 200) []]
                                [ChildExit 0 (ExitedWith 1)] 9 [] 1000]
                   (initialApp (lit "linux"))) in
  mainWindow a' = Some 0%nat /\ uiLog a' = [] /\
  effects (world a') = [ShowErrorBox (BackendCrashed (ByCode 1)); AppQuit].
Proof. repeat split. Qed.

Lemma nothing_before_ready_witness :
  dormant (runApp earlyActs (initialApp (lit "darwin"))).
Proof.
  apply (nothing_before_ready (lit "darwin") earlyActs).
  repeat constructor.
Defined.

End Cases.
